(** * Postmate: the handshake, the sanitizer and the request/reply/call/emit
    layer of [src/postmate.js], embedded as Rocq functions.

    Conventions of the embedding.
    - A message payload is a [value]: undefined, null, booleans, integer
      numbers, strings and plain objects (what the structured clone of a
      JSON-like payload delivers).  Arrays, non-integer numbers and the other
      cloneable classes (Date, Map, ...) are outside [value].
    - A plain object is the list of its own properties, in [Object.keys]
      order; its prototype is [Object.prototype], whose members are visible to
      property reads and to the [in] operator.
    - A listener is a function from the state it closes over and the event to
      the new state and the list of [action]s it performs, in program order.
      An uncaught exception ends the list with [Throw].
    - [postMessage], the logger, timers and DOM calls are recorded as actions;
      their own failures belong to the transport and are not modelled, but
      for the reply to a [get], whose value can be the data model itself and
      then fails to be cloned when the model holds a function. *)

From Stdlib Require Import ZArith List String Ascii Bool Lia DecimalString.
Import ListNotations.
Set Warnings "-register-all".
Open Scope string_scope.
Open Scope list_scope.

(** ** JavaScript values *)

Module JS.

Inductive value : Type :=
| VUndefined
| VNull
| VBool (b : bool)
| VNum (n : Z)
| VStr (s : string)
| VObj (own : list (string * value)).

(** ToBoolean. *)
Definition truthy (v : value) : bool :=
  match v with
  | VUndefined | VNull => false
  | VBool b => b
  | VNum n => negb (n =? 0)%Z
  | VStr s => negb (s =? "")
  | VObj _ => true
  end.

(** [typeof v === 'object'] (true of null as well). *)
Definition typeof_object (v : value) : bool :=
  match v with
  | VNull | VObj _ => true
  | _ => false
  end.

(** [v === s] for a string [s], and [v === n] for a number [n]: strict
    equality never converts. *)
Definition is_str (v : value) (s : string) : bool :=
  match v with
  | VStr t => t =? s
  | _ => false
  end.

Definition is_num (v : value) (n : Z) : bool :=
  match v with
  | VNum m => (m =? n)%Z
  | _ => false
  end.

Fixpoint lookup {A : Type} (k : string) (props : list (string * A)) : option A :=
  match props with
  | [] => None
  | (k', a) :: rest => if k' =? k then Some a else lookup k rest
  end.

Definition has_own {A : Type} (k : string) (props : list (string * A)) : bool :=
  match lookup k props with
  | Some _ => true
  | None => false
  end.

(** The members of [Object.prototype]: eleven methods and the [__proto__]
    accessor.  Every plain object inherits them. *)
Definition objectPrototypeMethods : list string :=
  [ "constructor"; "hasOwnProperty"; "isPrototypeOf"; "propertyIsEnumerable";
    "toLocaleString"; "toString"; "valueOf"; "__defineGetter__";
    "__defineSetter__"; "__lookupGetter__"; "__lookupSetter__" ].

Definition is_prototype_method (k : string) : bool :=
  existsb (String.eqb k) objectPrototypeMethods.

Definition in_object_prototype (k : string) : bool :=
  is_prototype_method k || (k =? "__proto__").

(** What [obj[k]] finds on a plain object with own properties [props]:
    an own property, a method or the accessor of [Object.prototype], or
    nothing (the read yields undefined). *)
Inductive found (A : Type) : Type :=
| Own (a : A)
| ProtoMethod (name : string)
| ProtoAccessor
| Absent.
Arguments Own {A} a.
Arguments ProtoMethod {A} name.
Arguments ProtoAccessor {A}.
Arguments Absent {A}.

Definition read {A : Type} (props : list (string * A)) (k : string) : found A :=
  match lookup k props with
  | Some a => Own a
  | None =>
      if is_prototype_method k then ProtoMethod k
      else if k =? "__proto__" then ProtoAccessor
      else Absent
  end.

(** [k in obj] for a plain object. *)
Definition has_property {A : Type} (k : string) (props : list (string * A)) : bool :=
  has_own k props || in_object_prototype k.

(** The names the protocol reads from a payload.  None of them is a member of
    [Object.prototype] (nor of the String, Number or Boolean prototypes), so
    reading one of them yields the own property or undefined. *)
Definition protocolFields : list string :=
  [ "postmate"; "type"; "childId"; "uid"; "value"; "property"; "data";
    "model"; "name" ].

(** [d.k] for [k] in [protocolFields] and [d] neither undefined nor null
    (reading a property of those throws; callers test [nullish] first where
    the source can reach such a read). *)
Definition field (d : value) (k : string) : value :=
  match d with
  | VObj own =>
      match lookup k own with
      | Some v => v
      | None => VUndefined
      end
  | _ => VUndefined
  end.

Definition nullish (d : value) : bool :=
  match d with
  | VUndefined | VNull => true
  | _ => false
  end.

Definition string_of_Z (n : Z) : string :=
  NilZero.string_of_int (Z.to_int n).

(** ToString / ToPropertyKey.  A plain object is converted by
    [Object.prototype.toString] unless it has an own [toString] property: a
    cloned object holds no function, so the own property is not callable,
    [valueOf] returns an object, and the conversion throws a TypeError
    ([None]). *)
Definition to_key (v : value) : option string :=
  match v with
  | VUndefined => Some "undefined"
  | VNull => Some "null"
  | VBool true => Some "true"
  | VBool false => Some "false"
  | VNum n => Some (string_of_Z n)     (* exact below 10^21 in magnitude *)
  | VStr s => Some s
  | VObj own =>
      if has_own "toString" own then None else Some "[object Object]"
  end.

End JS.
Export JS.

(** ** The envelope and the sanitizer *)

(** A window handle ([e.source], [frame.contentWindow], [window.parent]). *)
Inductive window : Type := Window (id : nat).

(** A [MessageEvent] as the transport delivers it: the sender's origin (always
    a string), the sender's window, and the cloned payload. *)
Record MessageEvent : Type := mkEvent {
  origin : string;
  source : window;
  data : value
}.

Definition messageType : string := "application/x-postmate-v1+json".

Definition messageTypes : list (string * value) :=
  [ ("handshake", VNum 1); ("handshake-reply", VNum 1); ("call", VNum 1);
    ("emit", VNum 1); ("reply", VNum 1); ("request", VNum 1) ].

(** The result of evaluating an expression that may throw. *)
Inductive completion (A : Type) : Type :=
| Normal (a : A)
| TypeError.
Arguments Normal {A} a.
Arguments TypeError {A}.

(** Truthiness of [messageTypes[k]]: an own entry is the number 1; an
    inherited member of [Object.prototype] is a function or an object. *)
Definition found_truthy (f : found value) : bool :=
  match f with
  | Own v => truthy v
  | ProtoMethod _ => true
  | ProtoAccessor => true
  | Absent => false
  end.

Definition sanitize (message : MessageEvent) (allowedOrigin : value) : completion bool :=
  if match allowedOrigin with
     | VStr allowed => negb (origin message =? allowed)
     | _ => false
     end
  then Normal false
  else if negb (truthy (data message)) then Normal false
  else if typeof_object (data message)
          && negb match data message with
                  | VObj own => has_property "postmate" own
                  | _ => false
                  end
  then Normal false
  else if negb (is_str (field (data message) "type") messageType) then Normal false
  else match to_key (field (data message) "postmate") with
       | None => TypeError
       | Some kind =>
           if negb (found_truthy (read messageTypes kind)) then Normal false
           else Normal true
       end.

(** ** Actions performed by listeners and API calls *)

Inductive level : Type := Debug | Error.

(** A function value: one supplied by the embedding page (a model function or
    an event callback), or a method inherited from [Object.prototype]. *)
Inductive func : Type :=
| UserFn (id : nat)
| ObjectPrototypeFn (name : string).

Inductive promise : Type :=
| HandshakePromise          (* returned by [sendHandshake] *)
| ModelPromise              (* returned by [sendHandshakeReply] *)
| GetPromise (uid : Z).     (* returned by one call of [get] *)

Inductive resolution : Type :=
| WithParentAPI
| WithChildAPI
| WithValue (v : value).

Inductive action : Type :=
| PostMessage (target : window) (envelope : value) (targetOrigin : string)
| Log (lvl : level) (text : string)
| Invoke (f : func) (args : list value)
| Resolve (p : promise) (r : resolution)
| Reject (p : promise) (reason : string)
| SetInterval (period : Z)
| ClearInterval
| RemoveFrame
| Throw.

Inductive settled : Type :=
| Pending
| Resolved (r : resolution)
| Rejected (reason : string).

(** Calling [resolve] or [reject] on a promise that is already settled does
    nothing. *)
Definition settle (now next : settled) : settled :=
  match now with
  | Pending => next
  | _ => now
  end.

(** ** The responder: [Postmate.Model] and [ChildAPI] *)

(** What a property of the responder's data model holds: plain data (the
    page's own, or cloned from the initiator), a function, or (read through
    the [__proto__] accessor) [Object.prototype] itself. *)
Inductive slot : Type :=
| Data (v : value)
| Fn (f : func)
| PrototypeObject.

(** The prototype of the data model: [Object.prototype] until a handshake
    assigns to [__proto__], which can replace it by null or by a cloned
    object (whose own prototype is [Object.prototype]). *)
Inductive prototype : Type :=
| ObjectPrototype
| NullPrototype
| DataPrototype (own : list (string * value)).

Record object : Type := mkObject {
  proto : prototype;
  props : list (string * slot)
}.

(** [model[k]]. *)
Definition model_get (m : object) (k : string) : slot :=
  match lookup k (props m) with
  | Some s => s
  | None =>
      match proto m with
      | NullPrototype => Data VUndefined
      | ObjectPrototype =>
          if is_prototype_method k then Fn (ObjectPrototypeFn k)
          else if k =? "__proto__" then PrototypeObject
          else Data VUndefined
      | DataPrototype own =>
          match lookup k own with
          | Some v => Data v
          | None =>
              if is_prototype_method k then Fn (ObjectPrototypeFn k)
              else if k =? "__proto__" then Data (VObj own)
              else Data VUndefined
          end
      end
  end.

(** [k in model]. *)
Definition model_has (m : object) (k : string) : bool :=
  has_own k (props m)
  || match proto m with
     | NullPrototype => false
     | ObjectPrototype => in_object_prototype k
     | DataPrototype own => has_own k own || in_object_prototype k
     end.

Definition is_function (s : slot) : bool :=
  match s with
  | Fn _ => true
  | _ => false
  end.

Fixpoint update {A : Type} (k : string) (a : A) (l : list (string * A)) : list (string * A) :=
  match l with
  | [] => []
  | (k', a') :: rest =>
      if k' =? k then (k', a) :: rest else (k', a') :: update k a rest
  end.

(** Whether an assignment to a missing [__proto__] reaches the accessor of
    [Object.prototype]. *)
Definition reaches_proto_setter (m : object) : bool :=
  match proto m with
  | ObjectPrototype => true
  | NullPrototype => false
  | DataPrototype own => negb (has_own "__proto__" own)
  end.

(** [model[k] = v]: an own property is overwritten; a missing [__proto__] goes
    to the accessor, which replaces the prototype when [v] is an object or
    null and otherwise does nothing; any other missing key becomes a new own
    property. *)
Definition model_set (m : object) (k : string) (v : value) : object :=
  if has_own k (props m) then
    mkObject (proto m) (update k (Data v) (props m))
  else if (k =? "__proto__") && reaches_proto_setter m then
    match v with
    | VObj own => mkObject (DataPrototype own) (props m)
    | VNull => mkObject NullPrototype (props m)
    | _ => m
    end
  else mkObject (proto m) (props m ++ [(k, Data v)]).

Fixpoint string_entries (i : nat) (s : string) : list (string * value) :=
  match s with
  | EmptyString => []
  | String c rest =>
      (string_of_Z (Z.of_nat i), VStr (String c EmptyString))
        :: string_entries (S i) rest
  end.

(** The own enumerable properties of a truthy value: those of an object, the
    indexed characters of a string, none for a number or a boolean. *)
Definition own_entries (v : value) : list (string * value) :=
  match v with
  | VObj own => own
  | VStr s => string_entries 0 s
  | _ => []
  end.

(** [Object.keys(defaults)] and [defaults[key]] for one of those keys. *)
Definition object_keys (v : value) : list string := map fst (own_entries v).

Definition own_get (v : value) (key : string) : value :=
  match lookup key (own_entries v) with
  | Some x => x
  | None => VUndefined
  end.

(** [Object.keys(defaults).forEach(key => { model[key] = defaults[key] })]. *)
Definition extend (model : object) (defaults : value) : object :=
  fold_left (fun m key => model_set m key (own_get defaults key))
            (object_keys defaults) model.

Record ChildAPI : Type := mkChildAPI {
  api_model : object;
  api_parent : window;
  api_parentOrigin : string;
  api_child : window;
  api_childId : value
}.

(** The state of one [Postmate.Model] instance and of its window. *)
Record Model : Type := mkModel {
  m_child : window;
  m_parent : window;
  m_model : object;
  m_childId : value;
  m_parentOrigin : option string;
  m_shaking : bool;                 (* [shake] is registered *)
  m_promise : settled;
  m_api : option ChildAPI           (* the [ChildAPI] whose listener is registered *)
}.

Definition obj_handshake_reply (childId : value) : value :=
  VObj [ ("postmate", VStr "handshake-reply"); ("type", VStr messageType);
         ("childId", childId) ].

(** [new Postmate.Model(model)]: registers [shake] and waits. *)
Definition new_Model (child parent : window) (model : object) : Model :=
  mkModel child parent model VUndefined None true Pending None.

(** The listener [shake] of [sendHandshakeReply]. *)
Definition shake (s : Model) (e : MessageEvent) : Model * list action :=
  if nullish (data e) then (s, [Throw])
  else if negb (truthy (field (data e) "postmate")) then (s, [])
  else if is_str (field (data e) "postmate") "handshake" then
    let childId := field (data e) "childId" in
    let defaults := field (data e) "model" in
    let model' := if truthy defaults then extend (m_model s) defaults else m_model s in
    let api := mkChildAPI model' (m_parent s) (origin e) (m_child s) childId in
    (mkModel (m_child s) (m_parent s) model' childId (Some (origin e)) false
             (settle (m_promise s) (Resolved WithChildAPI)) (Some api),
     [ Log Debug "Child: Received handshake from Parent";
       Log Debug "Child: Sending handshake reply to Parent";
       PostMessage (source e) (obj_handshake_reply childId) (origin e) ]
     ++ (if truthy defaults
         then [Log Debug "Child: Inherited and extended model from Parent"]
         else [])
     ++ [ Log Debug "Child: Saving Parent origin";
          Log Debug "Child: Registering API";
          Log Debug "Child: Awaiting messages...";
          Resolve ModelPromise WithChildAPI ])
  else
    (mkModel (m_child s) (m_parent s) (m_model s) (m_childId s) (m_parentOrigin s)
             (m_shaking s) (settle (m_promise s) (Rejected "Handshake Reply Failed"))
             (m_api s),
     [ Log Error "Child : Handshake Reply Failed";
       Reject ModelPromise "Handshake Reply Failed" ]).

Definition obj_reply (property childId uid v : value) : value :=
  VObj [ ("property", property); ("postmate", VStr "reply");
         ("type", VStr messageType); ("childId", childId); ("uid", uid);
         ("value", v) ].

Definition obj_emit (childId : value) (name : string) (payload : value) : value :=
  VObj [ ("postmate", VStr "emit"); ("type", VStr messageType);
         ("childId", childId);
         ("value", VObj [ ("name", VStr name); ("data", payload) ]) ].

Definition quote : string := String (ascii_of_nat 34) EmptyString.

Section Responder.

(** What the library obtains from a function the page stored in the data
    model: its return value when it is called without argument, or, when it
    is the [then] of a model that is a thenable, the value it resolves with.
    The functions are the page's code; they are assumed to yield a cloneable,
    settled value. *)
Variable returns : func -> value.

(** The structured clone of the model itself: a function among its own
    properties makes [postMessage] throw a DataCloneError ([None]). *)
Fixpoint clone_props (ps : list (string * slot)) : option (list (string * value)) :=
  match ps with
  | [] => Some []
  | (k, Data v) :: rest => option_map (cons (k, v)) (clone_props rest)
  | (k, PrototypeObject) :: rest => option_map (cons (k, VObj [])) (clone_props rest)
  | (_, Fn _) :: rest => None
  end.

(** [model[name]()] for a method [name] the model inherits from
    [Object.prototype]: the calls made and the result, [Some] of the value as
    the peer will receive it or [None] when it cannot be cloned.
    [toLocaleString] calls [this.toString()]; [valueOf] returns the model
    itself; [hasOwnProperty], [propertyIsEnumerable], [__lookupGetter__] and
    [__lookupSetter__] look at the property named by their missing argument,
    [undefined]; [constructor] is [Object]; [__defineGetter__] and
    [__defineSetter__] throw, their second argument not being callable. *)
Definition invoke_inherited (model : object) (name : string)
  : list action * completion (option value) :=
  let this_call := Invoke (ObjectPrototypeFn name) [] in
  if name =? "toString" then
    ([this_call], Normal (Some (VStr "[object Object]")))
  else if name =? "toLocaleString" then
    match lookup "toString" (props model) with
    | Some (Fn f) => ([this_call; Invoke f []], Normal (Some (returns f)))
    | Some _ => ([this_call], TypeError)
    | None =>
        match model_get model "toString" with
        | Fn _ => ([this_call], Normal (Some (VStr "[object Object]")))
        | _ => ([this_call], TypeError)
        end
    end
  else if name =? "valueOf" then
    match model_get model "then" with
    | Fn f => ([this_call; Invoke f []], Normal (Some (returns f)))
    | _ => ([this_call], Normal (option_map VObj (clone_props (props model))))
    end
  else if (name =? "hasOwnProperty") || (name =? "propertyIsEnumerable") then
    ([this_call], Normal (Some (VBool (has_own "undefined" (props model)))))
  else if name =? "isPrototypeOf" then
    ([this_call], Normal (Some (VBool false)))
  else if name =? "constructor" then
    ([this_call], Normal (Some (VObj [])))
  else if (name =? "__lookupGetter__") || (name =? "__lookupSetter__") then
    ([this_call], Normal (Some VUndefined))
  else ([this_call], TypeError).

(** [typeof model[k] === 'function' ? model[k]() : model[k]].  A function
    found among the own properties is the page's; one found through the
    prototype chain is a method of [Object.prototype]. *)
Definition unwrap (model : object) (k : string)
  : list action * completion (option value) :=
  match model_get model k with
  | Data v => ([], Normal (Some v))
  | PrototypeObject => ([], Normal (Some (VObj [])))   (* no enumerable own property *)
  | Fn f =>
      if has_own k (props model)
      then ([Invoke f []], Normal (Some (returns f)))
      else invoke_inherited model k
  end.

(** [resolveValue(model, property)]: the calls made, and the value the
    returned promise resolves with as the peer will receive it. *)
Definition resolveValue (model : object) (property : value)
  : list action * completion (option value) :=
  match to_key property with
  | None => ([], TypeError)
  | Some k => unwrap model k
  end.

(** The message listener registered by the [ChildAPI] constructor. *)
Definition child_listener (api : ChildAPI) (e : MessageEvent) : list action :=
  match sanitize e (VStr (api_parentOrigin api)) with
  | TypeError => [Throw]
  | Normal false => []
  | Normal true =>
      let property := field (data e) "property" in
      let uid := field (data e) "uid" in
      let payload := field (data e) "data" in
      Log Debug "Child: Received request"
      :: if is_str (field (data e) "postmate") "call" then
           match to_key property with
           | None => [Throw]
           | Some k =>
               if model_has (api_model api) k then
                 match model_get (api_model api) k with
                 | Fn f => [Invoke f [payload]]
                 | _ => []
                 end
               else []
           end
         else
           let '(calls, result) := resolveValue (api_model api) property in
           calls ++ match result with
                    | Normal (Some v) =>
                        [ PostMessage (source e)
                            (obj_reply property (api_childId api) uid v)
                            (origin e) ]
                    | Normal None => [Throw]      (* DataCloneError in [postMessage] *)
                    | TypeError => [Throw]
                    end
  end.

(** [ChildAPI.emit(name, data)]. *)
Definition emit (api : ChildAPI) (name : string) (payload : value) : list action :=
  [ Log Debug ("Child: Emitting Event " ++ quote ++ name ++ quote);
    PostMessage (api_parent api) (obj_emit (api_childId api) name payload)
                (api_parentOrigin api) ].

(** One message event dispatched on the responder's window: the listeners
    registered when the dispatch starts run in registration order. *)
Definition child_deliver (s : Model) (e : MessageEvent) : Model * list action :=
  let registered := m_api s in
  let '(s1, a1) := if m_shaking s then shake s e else (s, []) in
  (s1, a1 ++ match registered with
             | Some api => child_listener api e
             | None => []
             end).

End Responder.

(** ** The initiator: [Postmate] and [ParentAPI] *)

(** The fields of one [Postmate] instance that never change, with the origin
    [resolveOrigin(url)] computed for its url. *)
Record Postmate : Type := mkPostmate {
  model : value;
  childId : Z;
  child : window;
  childOrigin : string
}.

(** The variables closed over by [sendHandshake]. *)
Record Handshake : Type := mkHandshake {
  attempt : Z;
  responseInterval : option nat;    (* [None]: still undefined *)
  replying : bool;                  (* [reply] is registered *)
  outcome : settled
}.

Record ParentAPI : Type := mkParentAPI {
  p_childOrigin : string;           (* [this.childOrigin], saved from the ack *)
  events : list (string * list func);
  listening : bool;                 (* [this.listener] is registered *)
  attached : bool;                  (* the frame has a parent node *)
  transacts : list Z;               (* the registered [transact] listeners, by uid *)
  answers : list (Z * value)        (* the resolved [get] promises *)
}.

(** The initiator's window: the module's globals, the clock, the armed
    intervals (identifier and next due time), one [Postmate] instance, its
    handshake and, once constructed, its [ParentAPI]. *)
Record Parent : Type := mkParent {
  maxHandshakeRequests : Z;
  messageId : Z;
  clock : Z;
  timers : list (nat * Z);
  nextTimer : nat;
  self : Postmate;
  hs : Handshake;
  api : option ParentAPI
}.

Definition with_hs (s : Parent) (h : Handshake) : Parent :=
  mkParent (maxHandshakeRequests s) (messageId s) (clock s) (timers s)
           (nextTimer s) (self s) h (api s).

Definition with_api (s : Parent) (p : ParentAPI) : Parent :=
  mkParent (maxHandshakeRequests s) (messageId s) (clock s) (timers s)
           (nextTimer s) (self s) (hs s) (Some p).

Definition with_timers (s : Parent) (t : list (nat * Z)) : Parent :=
  mkParent (maxHandshakeRequests s) (messageId s) (clock s) t
           (nextTimer s) (self s) (hs s) (api s).

(** [++x] on a number that holds the integer [x]: exact below 2^53 in
    magnitude; beyond, the sum is rounded to the nearest number, a tie going
    to the even significand, so that a counter that has reached 2^53 stays
    there. *)
Definition increment (x : Z) : Z :=
  if (Z.abs x <? 2 ^ 53)%Z || (x =? - 2 ^ 53)%Z then (x + 1)%Z
  else if (Z.abs x <? 2 ^ 54)%Z then (if Z.even (x / 2) then x else x + 2)%Z
  else x.

(** [generateNewMessageId]: [++_messageId]. *)
Definition generateNewMessageId (s : Parent) : Parent * Z :=
  let uid := increment (messageId s) in
  (mkParent (maxHandshakeRequests s) uid (clock s) (timers s) (nextTimer s)
            (self s) (hs s) (api s),
   uid).

(** [clearInterval(responseInterval)]. *)
Definition clear (s : Parent) : Parent :=
  match responseInterval (hs s) with
  | None => s
  | Some id => with_timers s (filter (fun t => negb (Nat.eqb (fst t) id)) (timers s))
  end.

Definition obj_handshake (p : Postmate) : value :=
  VObj [ ("postmate", VStr "handshake"); ("type", VStr messageType);
         ("model", model p); ("childId", VNum (childId p)) ].

Definition obj_request (property : value) (uid : Z) : value :=
  VObj [ ("postmate", VStr "request"); ("type", VStr messageType);
         ("property", property); ("uid", VNum uid) ].

Definition obj_call (property payload : value) : value :=
  VObj [ ("postmate", VStr "call"); ("type", VStr messageType);
         ("property", property); ("data", payload) ].

(** The period of the interval armed by [loaded], and the static
    [Postmate.maxHandshakeRequests]. *)
Definition period : Z := 500.

Definition Postmate_maxHandshakeRequests : Z := 5.

(** [new Postmate({ model, url })], where [childId p] is the identifier that
    [childId()] returned: the frame is appended, [reply] is registered and
    the frame starts loading. *)
Definition new_Postmate (maxRequests messageId0 now : Z) (p : Postmate) : Parent :=
  mkParent maxRequests messageId0 now [] 1 p (mkHandshake 0 None true Pending) None.

(** [doSend] of [sendHandshake]. *)
Definition doSend (s : Parent) : Parent * list action :=
  let h := hs s in
  let n := (attempt h + 1)%Z in
  if (n >? maxHandshakeRequests s)%Z then
    (with_hs (clear s)
       (mkHandshake n (responseInterval h) (replying h)
                    (settle (outcome h) (Rejected "Handshake Timeout Reached"))),
     [ ClearInterval;
       Log Error "Parent: Handshake Timeout Reached";
       Reject HandshakePromise "Handshake Timeout Reached" ])
  else
    (with_hs s (mkHandshake n (responseInterval h) (replying h) (outcome h)),
     [ Log Debug ("Parent: Sending handshake attempt " ++ string_of_Z n);
       PostMessage (child (self s)) (obj_handshake (self s)) (childOrigin (self s)) ]).

(** [loaded]: the frame's load event. *)
Definition loaded (s : Parent) : Parent * list action :=
  let '(s1, a1) := doSend s in
  let id := nextTimer s1 in
  (mkParent (maxHandshakeRequests s1) (messageId s1) (clock s1)
            (timers s1 ++ [(id, (clock s1 + period)%Z)]) (S id) (self s1)
            (mkHandshake (attempt (hs s1)) (Some id) (replying (hs s1)) (outcome (hs s1)))
            (api s1),
   a1 ++ [SetInterval period]).

Fixpoint lookup_timer (id : nat) (ts : list (nat * Z)) : option Z :=
  match ts with
  | [] => None
  | (id', due) :: rest => if Nat.eqb id' id then Some due else lookup_timer id rest
  end.

Definition rearm (id : nat) (ts : list (nat * Z)) : list (nat * Z) :=
  map (fun t => if Nat.eqb (fst t) id then (fst t, (snd t + period)%Z) else t) ts.

(** The interval [id] fires: time advances to its due time, it is re-armed one
    period later and [doSend] runs.  An interval that is not armed cannot
    fire. *)
Definition tick (s : Parent) (id : nat) : Parent * list action :=
  match lookup_timer id (timers s) with
  | None => (s, [])
  | Some due =>
      doSend (mkParent (maxHandshakeRequests s) (messageId s) (Z.max (clock s) due)
                       (rearm id (timers s)) (nextTimer s) (self s) (hs s) (api s))
  end.

(** The [ParentAPI] constructor, called with the [Postmate] instance. *)
Definition new_ParentAPI (savedOrigin : string) : ParentAPI :=
  mkParentAPI savedOrigin [] true true [] [].

(** The listener [reply] of [sendHandshake]. *)
Definition reply (s : Parent) (e : MessageEvent) : Parent * list action :=
  match sanitize e (VStr (childOrigin (self s))) with
  | TypeError => (s, [Throw])
  | Normal false => (s, [])
  | Normal true =>
      if negb (is_num (field (data e) "childId") (childId (self s))) then (s, [])
      else if is_str (field (data e) "postmate") "handshake-reply" then
        let s1 := clear s in
        (mkParent (maxHandshakeRequests s1) (messageId s1) (clock s1) (timers s1)
                  (nextTimer s1) (self s1)
                  (mkHandshake (attempt (hs s1)) (responseInterval (hs s1)) false
                               (settle (outcome (hs s1)) (Resolved WithParentAPI)))
                  (Some (new_ParentAPI (origin e))),
         [ ClearInterval;
           Log Debug "Parent: Received handshake reply from Child";
           Log Debug "Parent: Saving Child origin";
           Log Debug "Parent: Registering API";
           Log Debug "Parent: Awaiting messages...";
           Log Debug "Parent: Awaiting event emissions from Child";
           Resolve HandshakePromise WithParentAPI ])
      else
        (with_hs s (mkHandshake (attempt (hs s)) (responseInterval (hs s))
                                (replying (hs s))
                                (settle (outcome (hs s)) (Rejected "Failed handshake"))),
         [ Log Error "Parent: Failed handshake";
           Reject HandshakePromise "Failed handshake" ])
  end.

(** [this.listener] of [ParentAPI]. *)
Definition listener (p : Postmate) (a : ParentAPI) (e : MessageEvent) : list action :=
  match sanitize e (VStr (p_childOrigin a)) with
  | TypeError => [Throw]
  | Normal false => []
  | Normal true =>
      let v := if truthy (field (data e) "value") then field (data e) "value"
               else VObj [] in
      let payload := field v "data" in
      let name := field v "name" in
      if is_str (field (data e) "postmate") "emit"
         && is_num (field (data e) "childId") (childId p)
      then
        match to_key name with
        | None => [Throw]
        | Some k =>
            Log Debug ("Parent: Received event emission: " ++ k)
            :: if has_property k (events a) then
                 match read (events a) k with
                 | Own callbacks => map (fun cb => Invoke cb [payload]) callbacks
                 | _ => [Throw]
                 end
               else []
        end
      else []
  end.

Definition remove_uid (uid : Z) (l : list Z) : list Z :=
  filter (fun u => negb (u =? uid)%Z) l.

(** The listener [transact] created by the call of [get] that drew [uid]. *)
Definition transact (p : Postmate) (uid : Z) (a : ParentAPI) (e : MessageEvent)
  : ParentAPI * list action :=
  if nullish (data e) then (a, [Throw])
  else if is_num (field (data e) "uid") uid
          && is_str (field (data e) "postmate") "reply"
          && is_num (field (data e) "childId") (childId p)
  then
    (mkParentAPI (p_childOrigin a) (events a) (listening a) (attached a)
                 (remove_uid uid (transacts a))
                 (answers a ++ [(uid, field (data e) "value")]),
     [Resolve (GetPromise uid) (WithValue (field (data e) "value"))])
  else (a, []).

(** [ParentAPI.get(property)]: returns the new state, the actions and the
    promise handed to the caller. *)
Definition get (s : Parent) (a : ParentAPI) (property : value)
  : Parent * list action * promise :=
  let '(s1, uid) := generateNewMessageId s in
  (with_api s1 (mkParentAPI (p_childOrigin a) (events a) (listening a) (attached a)
                            (transacts a ++ [uid]) (answers a)),
   [PostMessage (child (self s)) (obj_request property uid) (p_childOrigin a)],
   GetPromise uid).

(** [ParentAPI.call(property, data)]. *)
Definition call (p : Postmate) (a : ParentAPI) (property payload : value) : list action :=
  [PostMessage (child p) (obj_call property payload) (p_childOrigin a)].

(** [ParentAPI.on(eventName, callback)]. *)
Definition on (a : ParentAPI) (eventName : string) (callback : func)
  : ParentAPI * list action :=
  match read (events a) eventName with
  | Own callbacks =>
      (mkParentAPI (p_childOrigin a)
                   (update eventName (callbacks ++ [callback]) (events a))
                   (listening a) (attached a) (transacts a) (answers a), [])
  | Absent =>
      (mkParentAPI (p_childOrigin a) (events a ++ [(eventName, [callback])])
                   (listening a) (attached a) (transacts a) (answers a), [])
  | _ => (a, [Throw])
  end.

(** [ParentAPI.destroy()]. *)
Definition destroy (a : ParentAPI) : ParentAPI * list action :=
  let a' := mkParentAPI (p_childOrigin a) (events a) false false
                        (transacts a) (answers a) in
  if attached a
  then (a', [Log Debug "Parent: Destroying Postmate instance"; RemoveFrame])
  else (a', [Log Debug "Parent: Destroying Postmate instance"; Throw]).

(** The [transact] listeners registered when a dispatch starts, run in
    registration order. *)
Fixpoint transact_all (p : Postmate) (uids : list Z) (a : ParentAPI) (e : MessageEvent)
  : ParentAPI * list action :=
  match uids with
  | [] => (a, [])
  | uid :: rest =>
      let '(a1, out1) := transact p uid a e in
      let '(a2, out2) := transact_all p rest a1 e in
      (a2, out1 ++ out2)
  end.

(** One message event dispatched on the initiator's window. *)
Definition deliver (s : Parent) (e : MessageEvent) : Parent * list action :=
  match api s with
  | None => if replying (hs s) then reply s e else (s, [])
  | Some a =>
      let '(s1, out1) := if replying (hs s) then reply s e else (s, []) in
      let out2 := if listening a then listener (self s) a e else [] in
      let '(a3, out3) := transact_all (self s) (transacts a) a e in
      (with_api s1 a3, out1 ++ out2 ++ out3)
  end.

(** What can happen on the initiator's side. *)
Inductive input : Type :=
| Loaded
| Tick (id : nat)
| Message (e : MessageEvent)
| Get (property : value)
| Call (property payload : value)
| On (eventName : string) (callback : func)
| Destroy.

Definition step (s : Parent) (i : input) : Parent * list action :=
  match i, api s with
  | Loaded, _ => loaded s
  | Tick id, _ => tick s id
  | Message e, _ => deliver s e
  | Get property, Some a => fst (get s a property)
  | Call property payload, Some a => (s, call (self s) a property payload)
  | On eventName callback, Some a =>
      let '(a', out) := on a eventName callback in (with_api s a', out)
  | Destroy, Some a =>
      let '(a', out) := destroy a in (with_api s a', out)
  | _, None => (s, [])
  end.

(** A run: every action is stamped with the time at which it happened. *)
Fixpoint run (s : Parent) (inputs : list input) : Parent * list (Z * action) :=
  match inputs with
  | [] => (s, [])
  | i :: rest =>
      let '(s1, out1) := step s i in
      let '(s2, out2) := run s1 rest in
      (s2, map (pair (clock s1)) out1 ++ out2)
  end.

(** * Vocabulary of the statements, and sample inputs *)

(** The six kinds are exactly the own keys of [messageTypes]. *)
Definition recognized (kind : string) : bool :=
  existsb (String.eqb kind)
          ["handshake"; "handshake-reply"; "request"; "reply"; "call"; "emit"].

(** A payload of a kind that [messageTypes] does not list. *)
Definition forged_kind : MessageEvent :=
  mkEvent "https://other.example" (Window 7)
          (VObj [ ("postmate", VStr "constructor"); ("type", VStr messageType) ]).

(** A payload with the marker and the type tag. *)
Definition marked (kind : string) : value :=
  VObj [ ("postmate", VStr kind); ("type", VStr messageType) ].

Definition sample_model : object :=
  mkObject ObjectPrototype
           [ ("greeting", Data (VStr "hello")); ("height", Fn (UserFn 1)) ].

Definition sample_handshake : MessageEvent :=
  mkEvent "https://parent.example" (Window 0)
          (VObj [ ("postmate", VStr "handshake"); ("type", VStr messageType);
                  ("model", VObj [("greeting", VStr "hi")]); ("childId", VNum 1) ]).

Definition is_post (a : action) : bool :=
  match a with
  | PostMessage _ _ _ => true
  | _ => false
  end.

Definition is_throw (a : action) : bool :=
  match a with
  | Throw => true
  | _ => false
  end.

Definition is_handshake_post (a : action) : bool :=
  match a with
  | PostMessage _ envelope _ => is_str (field envelope "postmate") "handshake"
  | _ => false
  end.

Definition settles_handshake (a : action) : bool :=
  match a with
  | Resolve HandshakePromise _ | Reject HandshakePromise _ => true
  | _ => false
  end.

Definition stamped (f : action -> bool) (trace : list (Z * action)) : list (Z * action) :=
  filter (fun x => f (snd x)) trace.

(** The [n] first announcements of a handshake whose frame loaded at [now]. *)
Definition announcements (p : Postmate) (now : Z) (n : nat) : list (Z * action) :=
  map (fun i => ((now + period * Z.of_nat i)%Z,
                 PostMessage (child p) (obj_handshake p) (childOrigin p)))
      (seq 0 n).

(** An acknowledgment [reply] accepts. *)
Definition valid_ack (p : Postmate) (e : MessageEvent) : Prop :=
  sanitize e (VStr (childOrigin p)) = Normal true
  /\ field (data e) "childId" = VNum (childId p)
  /\ field (data e) "postmate" = VStr "handshake-reply".

Ltac same_state := repeat first [reflexivity | (unfold period; lia) | f_equal].

(** The state after the load event and [j] firings of the interval, while the
    budget lasts. *)
Definition announcing (max : nat) (mid now : Z) (p : Postmate) (j : nat) : Parent :=
  mkParent (Z.of_nat max) mid (now + period * Z.of_nat j)%Z
           [(1%nat, (now + period * (Z.of_nat j + 1))%Z)] 2 p
           (mkHandshake (Z.of_nat j + 1)%Z (Some 1%nat) true Pending) None.

(** The state after the firing that exhausts the budget. *)
Definition timed_out (max : nat) (mid now : Z) (p : Postmate) : Parent :=
  mkParent (Z.of_nat max) mid (now + period * Z.of_nat max)%Z [] 2 p
           (mkHandshake (Z.of_nat max + 1)%Z (Some 1%nat) true
                        (Rejected "Handshake Timeout Reached")) None.

(** Actions that neither announce a handshake nor settle its promise. *)
Definition quiet (a : action) : bool :=
  negb (is_handshake_post a) && negb (settles_handshake a).

(** The handshake has succeeded and left nothing behind: no armed interval, no
    [reply] listener. *)
Definition acknowledged (s : Parent) : Prop :=
  timers s = [] /\ replying (hs s) = false
  /\ outcome (hs s) = Resolved WithParentAPI.

Definition not_a_load (i : input) : Prop := i <> Loaded.

Definition sample_postmate : Postmate :=
  mkPostmate (VObj [("greeting", VStr "hi")]) 1 (Window 1) "https://child.example".

Definition sample_ack : MessageEvent :=
  mkEvent "https://child.example" (Window 1) (obj_handshake_reply (VNum 1)).

(** The initiator of [sample_postmate] once its first announcement has been
    acknowledged. *)
Definition established : Parent :=
  fst (run (new_Postmate Postmate_maxHandshakeRequests 0 0 sample_postmate)
           [Loaded; Message sample_ack]).

Definition forged_reply : MessageEvent :=
  mkEvent "https://other.example" (Window 9)
          (VObj [ ("postmate", VStr "reply"); ("uid", VNum 1);
                  ("childId", VNum 1); ("value", VStr "forged") ]).

(** [H : In a l] where no member of the explicit list [l] can be [a]. *)
Ltac none_of H :=
  cbn [In] in H;
  repeat (let F := fresh in destruct H as [F|H]; [discriminate F|]);
  contradiction.

Definition sample_reply : MessageEvent :=
  mkEvent "https://child.example" (Window 1)
          (obj_reply (VStr "height") (VNum 1) (VNum 1) (VNum 42)).

(** A listener acted on a message when it did something else than throw. *)
Definition acted (out : list action) : bool :=
  existsb (fun a => negb (is_throw a)) out.

Definition sample_api : ChildAPI :=
  mkChildAPI sample_model (Window 0) "https://parent.example" (Window 1) (VNum 1).

Definition sample_call : MessageEvent :=
  mkEvent "https://parent.example" (Window 0) (obj_call (VStr "height") (VNum 3)).

(** A handshake with no [type] field. *)
Definition untagged_handshake : MessageEvent :=
  mkEvent "https://parent.example" (Window 0)
          (VObj [ ("postmate", VStr "handshake"); ("childId", VNum 1) ]).

Definition sample_request : MessageEvent :=
  mkEvent "https://parent.example" (Window 0)
          (VObj [ ("postmate", VStr "request"); ("type", VStr messageType);
                  ("property", VStr "width"); ("uid", VNum 8) ]).

(** * More of the source *)

(** ** [SanitizeLogger] *)

Definition loggerMethods : list string := ["debug"; "error"].

(** [logger[k] = f] for a method name [k] (never [__proto__]) and a function
    [f]: the own property is overwritten, or created. *)
Definition set_method (logger : object) (k : string) (f : func) : object :=
  if has_own k (props logger)
  then mkObject (proto logger) (update k (Fn f) (props logger))
  else mkObject (proto logger) (props logger ++ [(k, Fn f)]).

(** [SanitizeLogger(logger)], where [emptyMethod] is the function the function
    expression creates.  A member that is undefined is not a function, so the
    test is [typeof logger[methodName] !== 'function']. *)
Definition SanitizeLogger (emptyMethod : func) (logger : object) : object :=
  fold_left (fun l methodName =>
               if negb (is_function (model_get l methodName))
               then set_method l methodName emptyMethod
               else l)
            loggerMethods logger.

(** ** Sequences of events *)

(** Message events dispatched one after the other on the responder's window. *)
Fixpoint child_run (returns : func -> value) (s : Model) (events : list MessageEvent)
  : Model * list action :=
  match events with
  | [] => (s, [])
  | e :: rest =>
      let '(s1, out1) := child_deliver returns s e in
      let '(s2, out2) := child_run returns s1 rest in
      (s2, out1 ++ out2)
  end.

(** [on(eventName, cb)] for each callback of a list, in order. *)
Definition register (a : ParentAPI) (eventName : string) (callbacks : list func)
  : ParentAPI :=
  fold_left (fun a' cb => fst (on a' eventName cb)) callbacks a.

(** ** Vocabulary of the further statements *)

Definition is_handshake_reply_post (a : action) : bool :=
  match a with
  | PostMessage _ envelope _ => is_str (field envelope "postmate") "handshake-reply"
  | _ => false
  end.

(** The value a read of [model[k]] resolves with, as the peer receives it. *)
Definition resolved_value (returns : func -> value) (m : object) (k : string) : value :=
  match model_get m k with
  | Data v => v
  | Fn f => returns f
  | PrototypeObject => VObj []
  end.

(** The calls a read of [model[k]] makes. *)
Definition accessor_calls (m : object) (k : string) : list action :=
  match model_get m k with
  | Fn f => [Invoke f []]
  | _ => []
  end.

(** The callbacks registered under an event name. *)
Definition callbacks_of (a : ParentAPI) (eventName : string) : list func :=
  match lookup eventName (events a) with
  | Some l => l
  | None => []
  end.

(** The correlation identifiers of one API: those still awaited and those
    answered. *)
Definition drawn (a : ParentAPI) : list Z := transacts a ++ map fst (answers a).

(** The number of [get] calls among the inputs. *)
Definition is_get (i : input) : bool :=
  match i with Get _ => true | _ => false end.

Definition gets (inputs : list input) : nat := List.length (filter is_get inputs).

(** No identifier is awaited twice, and none exceeds the counter. *)
Definition fresh (s : Parent) : Prop :=
  match api s with
  | None => True
  | Some a => NoDup (transacts a) /\ Forall (fun u => (u <= messageId s)%Z) (drawn a)
  end.

(** The interval [id] is armed but is no longer the one [responseInterval]
    names. *)
Definition superseded (s : Parent) (id : nat) : Prop :=
  lookup_timer id (timers s) <> None
  /\ responseInterval (hs s) <> Some id
  /\ (id < nextTimer s)%nat.

(** A message the handshake listener of [p] lets pass: [sanitize] rejects it
    for the child's origin, or it carries another instance identifier. *)
Definition noise (p : Postmate) (e : MessageEvent) : Prop :=
  sanitize e (VStr (childOrigin p)) = Normal false
  \/ (sanitize e (VStr (childOrigin p)) = Normal true
      /\ field (data e) "childId" <> VNum (childId p)).

(** Firings of the first interval and noise, in any order. *)
Definition calm (p : Postmate) (i : input) : Prop :=
  i = Tick 1 \/ exists e, i = Message e /\ noise p e.

Fixpoint ticks (inputs : list input) : nat :=
  match inputs with
  | [] => 0
  | Tick _ :: rest => S (ticks rest)
  | _ :: rest => ticks rest
  end.

(** A reply of another pairing (instance 2) from the same child origin. *)
Definition foreign_reply : MessageEvent :=
  mkEvent "https://child.example" (Window 1)
          (obj_reply (VStr "height") (VNum 2) (VNum 1) (VNum 42)).

(** * Properties *)

(** ** The sanitizer *)

Lemma lookup_messageTypes_truthy (k : string) (v : value) :
  lookup k messageTypes = Some v -> truthy v = true.
Proof.
  unfold messageTypes; cbn [lookup].
  repeat (destruct (String.eqb _ k); [intros [= <-]; reflexivity|]).
  discriminate.
Qed.

Lemma recognized_own (k : string) :
  recognized k = has_own k messageTypes.
Proof.
  unfold recognized, has_own, messageTypes; cbn [existsb lookup].
  rewrite !(String.eqb_sym k).
  repeat (destruct (String.eqb _ k); cbn [orb]; try reflexivity).
Qed.

(** A payload with no [postmate] key is rejected, whatever the origin
    argument: an object fails the [in] test, any other payload has no
    [type]. *)
Lemma sanitize_rejects_unmarked (m : MessageEvent) (allowedOrigin : value) :
  (forall own, data m = VObj own -> has_own "postmate" own = false) ->
  sanitize m allowedOrigin = Normal false.
Proof.
  intros H. unfold sanitize.
  destruct (match allowedOrigin with VStr a => _ | _ => _ end); [reflexivity|].
  destruct (data m) as [| |b|n|s|own] eqn:E; simpl; try reflexivity.
  - destruct b; reflexivity.
  - destruct (negb (n =? 0)%Z); reflexivity.
  - destruct (negb (s =? "")%string); reflexivity.
  - unfold has_property. rewrite (H own eq_refl). reflexivity.
Qed.

(** A payload whose [type] is not the shared constant is rejected. *)
Lemma sanitize_rejects_wrong_type (m : MessageEvent) (allowedOrigin : value) :
  field (data m) "type" <> VStr messageType ->
  sanitize m allowedOrigin = Normal false.
Proof.
  intros H. unfold sanitize.
  destruct (match allowedOrigin with VStr a => _ | _ => _ end); [reflexivity|].
  destruct (negb (truthy (data m))); [reflexivity|].
  destruct (_ && _); [reflexivity|].
  destruct (field (data m) "type") as [| |b|n|s|own] eqn:E; simpl; try reflexivity.
  destruct (String.eqb_spec s messageType) as [->|Hne]; [congruence|reflexivity].
Qed.

(** A kind that is neither an own key of [messageTypes] nor a member of
    [Object.prototype] is rejected. *)
Lemma sanitize_rejects_unknown_kind (m : MessageEvent) (allowedOrigin : value) (kind : string) :
  to_key (field (data m) "postmate") = Some kind ->
  recognized kind = false ->
  in_object_prototype kind = false ->
  sanitize m allowedOrigin = Normal false.
Proof.
  intros Hk Hr Hp. unfold sanitize.
  destruct (match allowedOrigin with VStr a => _ | _ => _ end); [reflexivity|].
  destruct (negb (truthy (data m))); [reflexivity|].
  destruct (_ && _); [reflexivity|].
  destruct (negb (is_str _ _)); [reflexivity|].
  rewrite Hk. unfold read.
  rewrite recognized_own in Hr. unfold has_own in Hr.
  destruct (lookup kind messageTypes); [discriminate|].
  unfold in_object_prototype in Hp. apply orb_false_iff in Hp as [-> ->].
  reflexivity.
Qed.

(** C2: the kind [constructor] is not one of the six recognized kinds, yet a
    payload of that kind with the right [type] passes [sanitize], with origin
    checking disabled and with the sender's origin expected alike: the lookup
    [messageTypes[kind]] finds [Object.prototype.constructor]. *)
Theorem sanitize_accepts_inherited_kind :
  recognized "constructor" = false
  /\ sanitize forged_kind (VBool false) = Normal true
  /\ sanitize forged_kind (VStr "https://other.example") = Normal true.
Proof. repeat split. Qed.

(** C3: with an expected origin, a message from any other origin is rejected;
    without one (the origin argument is not a string), two messages that
    differ only in their origin get the same result. *)
Theorem sanitize_origin_check :
  (forall (m : MessageEvent) (expected : string),
      origin m <> expected -> sanitize m (VStr expected) = Normal false)
  /\ (forall (o1 o2 : string) (w : window) (d allowedOrigin : value),
        (forall expected, allowedOrigin <> VStr expected) ->
        sanitize (mkEvent o1 w d) allowedOrigin
        = sanitize (mkEvent o2 w d) allowedOrigin).
Proof.
  split.
  - intros m expected H. unfold sanitize.
    destruct (String.eqb_spec (origin m) expected) as [E|_]; [contradiction|reflexivity].
  - intros o1 o2 w d allowedOrigin H.
    destruct allowedOrigin; try reflexivity.
    exfalso. exact (H s eq_refl).
Qed.

Lemma sanitize_origin_check_witness :
  sanitize (mkEvent "https://other.example" (Window 1) (marked "emit"))
           (VStr "https://child.example") = Normal false
  /\ sanitize (mkEvent "https://other.example" (Window 1) (marked "emit")) (VBool false)
     = sanitize (mkEvent "https://child.example" (Window 1) (marked "emit")) (VBool false).
Proof.
  split.
  - apply (proj1 sanitize_origin_check). discriminate.
  - apply (proj2 sanitize_origin_check). discriminate.
Defined.

(** ** Own properties *)

Lemma lookup_app {A : Type} (k : string) (l l' : list (string * A)) :
  lookup k (l ++ l') = match lookup k l with
                       | Some a => Some a
                       | None => lookup k l'
                       end.
Proof.
  induction l as [|[k' a] l IH]; cbn [lookup app]; [reflexivity|].
  destruct (k' =? k)%string; [reflexivity|exact IH].
Qed.

Lemma lookup_update {A : Type} (k k' : string) (a : A) (l : list (string * A)) :
  lookup k' (update k a l)
  = if (k =? k')%string
    then match lookup k l with Some _ => Some a | None => None end
    else lookup k' l.
Proof.
  induction l as [|[k0 a0] l IH]; cbn [lookup update].
  - destruct (k =? k')%string; reflexivity.
  - destruct (String.eqb_spec k0 k) as [->|Hne]; cbn [lookup].
    + destruct (k =? k')%string; reflexivity.
    + rewrite IH.
      destruct (String.eqb_spec k k') as [<-|Hne'].
      * destruct (String.eqb_spec k0 k); [contradiction|reflexivity].
      * reflexivity.
Qed.

Lemma lookup_in_keys {A : Type} (k : string) (l : list (string * A)) :
  lookup k l <> None <-> In k (map fst l).
Proof.
  induction l as [|[k' a] l IH]; cbn [lookup map fst In].
  - split; [congruence|tauto].
  - destruct (String.eqb_spec k' k) as [->|Hne].
    + split; [auto|discriminate].
    + rewrite IH. split; [auto|intros [E|H]; [contradiction|exact H]].
Qed.

(** The own properties of the model after [model[k] = v]. *)
Lemma model_set_own (m : object) (k k' : string) (v : value) :
  lookup k' (props (model_set m k v))
  = if (k =? k')%string
    then if has_own k (props m) || negb ((k =? "__proto__")%string && reaches_proto_setter m)
         then Some (Data v)
         else lookup k' (props m)
    else lookup k' (props m).
Proof.
  unfold model_set, has_own.
  destruct (lookup k (props m)) as [s|] eqn:E; cbn [orb].
  - cbn [props]. rewrite lookup_update, E. reflexivity.
  - destruct ((k =? "__proto__")%string && reaches_proto_setter m) eqn:P; cbn [negb].
    + destruct (String.eqb_spec k k') as [<-|Hne].
      * destruct v; cbn [props]; reflexivity.
      * destruct v; cbn [props]; reflexivity.
    + cbn [props]. rewrite lookup_app. cbn [lookup].
      destruct (String.eqb_spec k k') as [<-|Hne].
      * rewrite E. reflexivity.
      * destruct (lookup k' (props m)); reflexivity.
Qed.

Section Extend.

Variable g : string -> value.

Let assign (m : object) (key : string) : object := model_set m key (g key).

Lemma assign_keeps_own (m : object) (key k : string) :
  has_own k (props m) = true -> has_own k (props (assign m key)) = true.
Proof.
  unfold assign, has_own. rewrite model_set_own.
  destruct (lookup k (props m)) eqn:E; [|discriminate]. intros _.
  destruct (key =? k)%string; [destruct (_ || _)|]; reflexivity.
Qed.

Lemma fold_assign_untouched (keys : list string) (m : object) (k : string) :
  ~ In k keys ->
  lookup k (props (fold_left assign keys m)) = lookup k (props m).
Proof.
  revert m. induction keys as [|key keys IH]; intros m H; cbn [fold_left]; [reflexivity|].
  rewrite IH by (intros F; apply H; right; exact F).
  unfold assign. rewrite model_set_own.
  destruct (String.eqb_spec key k) as [->|_]; [|reflexivity].
  exfalso. apply H. left. reflexivity.
Qed.

Lemma fold_assign_assigned (keys : list string) (m : object) (k : string) :
  In k keys ->
  has_own k (props m) = true \/ k <> "__proto__" ->
  lookup k (props (fold_left assign keys m)) = Some (Data (g k)).
Proof.
  revert m. induction keys as [|key keys IH]; intros m Hin Hk; [destruct Hin|].
  cbn [fold_left].
  assert (Hk' : has_own k (props (assign m key)) = true \/ k <> "__proto__").
  { destruct Hk as [Hk|Hk]; [left; apply assign_keeps_own; exact Hk|right; exact Hk]. }
  destruct (in_dec string_dec k keys) as [Hrest|Hrest].
  - apply IH; assumption.
  - destruct Hin as [->|Hin]; [|contradiction].
    rewrite fold_assign_untouched by exact Hrest.
    unfold assign. rewrite model_set_own, String.eqb_refl.
    destruct Hk as [->|Hk]; [reflexivity|].
    destruct (String.eqb_spec k "__proto__") as [E|_]; [contradiction|].
    cbn [andb negb]. rewrite orb_true_r. reflexivity.
Qed.

End Extend.

Lemma model_get_own (m : object) (k : string) (s : slot) :
  lookup k (props m) = Some s -> model_get m k = s.
Proof. unfold model_get. intros ->. reflexivity. Qed.

(** What [extend] leaves in the model, key by key. *)
Lemma extend_assigned (m : object) (defaults : list (string * value)) (k : string) (v : value) :
  lookup k defaults = Some v ->
  has_own k (props m) = true \/ k <> "__proto__" ->
  model_get (extend m (VObj defaults)) k = Data v.
Proof.
  intros Hd Hk. apply model_get_own. unfold extend, object_keys.
  rewrite (fold_assign_assigned (own_get (VObj defaults))).
  - unfold own_get. cbn [own_entries]. rewrite Hd. reflexivity.
  - cbn [own_entries]. apply lookup_in_keys. congruence.
  - exact Hk.
Qed.

Lemma extend_untouched (m : object) (defaults : list (string * value)) (k : string) :
  lookup k defaults = None ->
  lookup k (props (extend m (VObj defaults))) = lookup k (props m).
Proof.
  intros Hd. unfold extend, object_keys.
  apply (fold_assign_untouched (own_get (VObj defaults))).
  cbn [own_entries]. rewrite <- lookup_in_keys. congruence.
Qed.

(** What [shake] does with a message of kind [handshake]. *)
Lemma shake_accepts (s : Model) (e : MessageEvent) :
  field (data e) "postmate" = VStr "handshake" ->
  let childId := field (data e) "childId" in
  let defaults := field (data e) "model" in
  let model' := if truthy defaults then extend (m_model s) defaults else m_model s in
  shake s e
  = (mkModel (m_child s) (m_parent s) model' childId (Some (origin e)) false
             (settle (m_promise s) (Resolved WithChildAPI))
             (Some (mkChildAPI model' (m_parent s) (origin e) (m_child s) childId)),
     [ Log Debug "Child: Received handshake from Parent";
       Log Debug "Child: Sending handshake reply to Parent";
       PostMessage (source e) (obj_handshake_reply childId) (origin e) ]
     ++ (if truthy defaults
         then [Log Debug "Child: Inherited and extended model from Parent"]
         else [])
     ++ [ Log Debug "Child: Saving Parent origin";
          Log Debug "Child: Registering API";
          Log Debug "Child: Awaiting messages...";
          Resolve ModelPromise WithChildAPI ]).
Proof.
  intros K. unfold shake.
  destruct (data e) as [| |b|n|t|own] eqn:E; try discriminate K.
  cbn [nullish]. rewrite K. reflexivity.
Qed.

(** C8: when a handshake carries the data model [defaults], every key of
    [defaults] that conflicts with an own key of the responder's model now holds
    the initiator's value (the whole value: nothing below the first level is
    merged), every own key of the responder that [defaults] lacks holds what it
    held, and [{greeting: 'hi'}] leaves [greeting: 'hi'] in the model. *)
Theorem handshake_merges_model (s : Model) (e : MessageEvent)
    (defaults : list (string * value)) :
  field (data e) "postmate" = VStr "handshake" ->
  field (data e) "model" = VObj defaults ->
  let merged := m_model (fst (shake s e)) in
  (forall k v, lookup k defaults = Some v ->
               has_own k (props (m_model s)) = true \/ k <> "__proto__" ->
               model_get merged k = Data v)
  /\ (forall k, has_own k (props (m_model s)) = true ->
                lookup k defaults = None ->
                model_get merged k = model_get (m_model s) k)
  /\ (defaults = [("greeting", VStr "hi")] ->
      model_get merged "greeting" = Data (VStr "hi")).
Proof.
  intros Hk Hm merged. subst merged.
  rewrite (shake_accepts s e Hk), Hm. cbn [fst m_model truthy].
  repeat split.
  - intros k v Hd Ho. apply extend_assigned; assumption.
  - intros k Ho Hd. unfold has_own in Ho.
    destruct (lookup k (props (m_model s))) as [sl|] eqn:E; [|discriminate].
    rewrite (model_get_own _ _ sl E).
    apply model_get_own. rewrite extend_untouched; assumption.
  - intros ->. apply extend_assigned; [reflexivity|right; discriminate].
Qed.

Lemma handshake_merges_model_witness :
  let merged :=
    m_model (fst (shake (new_Model (Window 1) (Window 0) sample_model) sample_handshake)) in
  (forall k v, lookup k [("greeting", VStr "hi")] = Some v ->
               has_own k (props sample_model) = true \/ k <> "__proto__" ->
               model_get merged k = Data v)
  /\ (forall k, has_own k (props sample_model) = true ->
                lookup k [("greeting", VStr "hi")] = None ->
                model_get merged k = model_get sample_model k)
  /\ ([("greeting", VStr "hi")] = [("greeting", VStr "hi")] ->
      model_get merged "greeting" = Data (VStr "hi")).
Proof.
  exact (handshake_merges_model (new_Model (Window 1) (Window 0) sample_model)
                                sample_handshake [("greeting", VStr "hi")]
                                eq_refl eq_refl).
Defined.

(** ** The responder's listener *)

Lemma sanitize_inv (e : MessageEvent) (expected : string) :
  sanitize e (VStr expected) = Normal true ->
  origin e = expected
  /\ field (data e) "type" = VStr messageType
  /\ exists own, data e = VObj own.
Proof.
  unfold sanitize.
  destruct (String.eqb_spec (origin e) expected) as [E|_]; cbn [negb]; [|discriminate].
  destruct (negb (truthy (data e))); [discriminate|].
  destruct (_ && _); [discriminate|].
  destruct (field (data e) "type") as [| |b|n|t|o] eqn:T; cbn [is_str negb]; try discriminate.
  destruct (String.eqb_spec t messageType) as [->|_]; cbn [negb]; [|discriminate].
  intros _. repeat split; [exact E|].
  destruct (data e) as [| |b|n|t|own]; try discriminate T. eexists; reflexivity.
Qed.

Lemma model_get_absent (m : object) (k : string) :
  model_has m k = false -> model_get m k = Data VUndefined.
Proof.
  unfold model_has, model_get, has_own, in_object_prototype.
  destruct (lookup k (props m)); cbn [orb]; [discriminate|].
  destruct (proto m) as [| |own]; [|reflexivity|].
  - intros H. apply orb_false_iff in H as [-> ->]. reflexivity.
  - destruct (lookup k own); cbn [orb]; [discriminate|].
    intros H. apply orb_false_iff in H as [-> ->]. reflexivity.
Qed.

Section ResponderProperties.

Variable returns : func -> value.

(** A message of kind [call] is never answered. *)
Lemma call_sends_nothing (api : ChildAPI) (e : MessageEvent) :
  field (data e) "postmate" = VStr "call" ->
  filter is_post (child_listener returns api e) = [].
Proof.
  intros K. unfold child_listener.
  destruct (sanitize e _) as [[|]|]; try reflexivity.
  rewrite K. cbn [is_str]. rewrite String.eqb_refl. cbn [filter is_post].
  destruct (to_key _); [|reflexivity].
  destruct (model_has _ _); [|reflexivity].
  destruct (model_get _ _); reflexivity.
Qed.

Lemma sanitize_call (o : string) (w : window) (property payload : value) :
  sanitize (mkEvent o w (obj_call property payload)) (VStr o) = Normal true.
Proof.
  unfold sanitize. cbn [origin data]. rewrite String.eqb_refl. reflexivity.
Qed.

(** C9: [call(f, payload)] posts one [call] envelope that names [f] and holds
    the payload; the responder that receives it from the origin it recorded
    invokes [model[f]] with the payload when [f] is in the model and is a
    function, invokes nothing otherwise, and posts no message in either
    case. *)
Theorem call_invokes_without_reply
    (p : Postmate) (a : ParentAPI) (api : ChildAPI) (w : window)
    (f : string) (payload : value) :
  let envelope := obj_call (VStr f) payload in
  let e := mkEvent (api_parentOrigin api) w envelope in
  call p a (VStr f) payload = [PostMessage (child p) envelope (p_childOrigin a)]
  /\ field envelope "postmate" = VStr "call"
  /\ field envelope "property" = VStr f
  /\ field envelope "data" = payload
  /\ child_listener returns api e
     = Log Debug "Child: Received request"
       :: (if model_has (api_model api) f && is_function (model_get (api_model api) f)
           then match model_get (api_model api) f with
                | Fn fn => [Invoke fn [payload]]
                | _ => []
                end
           else [])
  /\ (model_has (api_model api) f && is_function (model_get (api_model api) f) = true ->
      exists fn, model_get (api_model api) f = Fn fn
                 /\ In (Invoke fn [payload]) (child_listener returns api e))
  /\ (model_has (api_model api) f && is_function (model_get (api_model api) f) = false ->
      forall fn args, ~ In (Invoke fn args) (child_listener returns api e))
  /\ filter is_post (child_listener returns api e) = [].
Proof.
  intros envelope e.
  assert (L : child_listener returns api e
     = Log Debug "Child: Received request"
       :: (if model_has (api_model api) f && is_function (model_get (api_model api) f)
           then match model_get (api_model api) f with
                | Fn fn => [Invoke fn [payload]]
                | _ => []
                end
           else [])).
  { unfold child_listener. subst e envelope. rewrite sanitize_call.
    cbn [data field obj_call lookup]. cbn.
    destruct (model_has (api_model api) f); [|reflexivity].
    destruct (model_get (api_model api) f); reflexivity. }
  repeat split; try reflexivity.
  - exact L.
  - intros H. rewrite L, H.
    destruct (model_get (api_model api) f) as [v|fn|] eqn:G;
      cbn [is_function] in H; rewrite ?andb_false_r in H; try discriminate.
    exists fn. split; [reflexivity|]. right. left. reflexivity.
  - intros H fn args. rewrite L, H. intros [F|[]]. discriminate F.
  - apply call_sends_nothing. reflexivity.
Qed.

(** C10: a sanitized message of another kind than [call] whose property names
    a key that is not in the model is answered by exactly one [reply] envelope,
    sent to the sender at its origin, that carries the request's correlation
    identifier, the instance identifier and the value undefined; the listener
    does not throw. *)
Theorem absent_property_is_answered
    (api : ChildAPI) (e : MessageEvent) (k : string) :
  sanitize e (VStr (api_parentOrigin api)) = Normal true ->
  field (data e) "postmate" <> VStr "call" ->
  to_key (field (data e) "property") = Some k ->
  model_has (api_model api) k = false ->
  let envelope := obj_reply (field (data e) "property") (api_childId api)
                            (field (data e) "uid") VUndefined in
  child_listener returns api e
  = [ Log Debug "Child: Received request";
      PostMessage (source e) envelope (origin e) ]
  /\ field envelope "postmate" = VStr "reply"
  /\ field envelope "uid" = field (data e) "uid"
  /\ field envelope "childId" = api_childId api
  /\ field envelope "value" = VUndefined
  /\ filter is_throw (child_listener returns api e) = [].
Proof.
  intros S K P A envelope.
  assert (L : child_listener returns api e
              = [ Log Debug "Child: Received request";
                  PostMessage (source e) envelope (origin e) ]).
  { unfold child_listener. rewrite S.
    assert (C : is_str (field (data e) "postmate") "call" = false).
    { destruct (field (data e) "postmate") as [| |b|n|t|o]; try reflexivity.
      cbn [is_str]. apply String.eqb_neq. congruence. }
    rewrite C. unfold resolveValue. rewrite P. unfold unwrap.
    rewrite (model_get_absent _ _ A). reflexivity. }
  rewrite L. repeat split; reflexivity.
Qed.

End ResponderProperties.

Lemma call_invokes_without_reply_witness :
  (exists fn, model_get sample_model "height" = Fn fn
              /\ In (Invoke fn [VNum 3])
                    (child_listener (fun _ => VNum 170) sample_api sample_call))
  /\ filter is_post (child_listener (fun _ => VNum 170) sample_api sample_call) = [].
Proof.
  pose proof (call_invokes_without_reply (fun _ => VNum 170) sample_postmate
                (new_ParentAPI "https://child.example") sample_api (Window 0)
                "height" (VNum 3)) as (_ & _ & _ & _ & _ & I & _ & N).
  split; [exact (I eq_refl)|exact N].
Defined.

Lemma absent_property_is_answered_witness :
  child_listener (fun _ => VNum 170) sample_api sample_request
  = [ Log Debug "Child: Received request";
      PostMessage (Window 0)
                  (obj_reply (VStr "width") (VNum 1) (VNum 8) VUndefined)
                  "https://parent.example" ].
Proof.
  refine (proj1 (absent_property_is_answered (fun _ => VNum 170) sample_api
                   sample_request "width" eq_refl _ eq_refl eq_refl)).
  discriminate.
Defined.

(** ** The handshake of the initiator *)

Lemma run_app (s : Parent) (l1 l2 : list input) :
  run s (l1 ++ l2)
  = (fst (run (fst (run s l1)) l2),
     snd (run s l1) ++ snd (run (fst (run s l1)) l2)).
Proof.
  revert s. induction l1 as [|i l1 IH]; intros s; cbn [run app].
  - cbn [fst snd app]. destruct (run s l2); reflexivity.
  - destruct (step s i) as [s1 out1]. rewrite IH.
    destruct (run s1 l1) as [s2 out2]. cbn [fst snd].
    rewrite app_assoc. reflexivity.
Qed.

Lemma stamped_app (f : action -> bool) (l1 l2 : list (Z * action)) :
  stamped f (l1 ++ l2) = stamped f l1 ++ stamped f l2.
Proof. apply filter_app. Qed.

Lemma announcements_S (p : Postmate) (now : Z) (n : nat) :
  announcements p now (S n)
  = announcements p now n
    ++ [((now + period * Z.of_nat n)%Z,
         PostMessage (child p) (obj_handshake p) (childOrigin p))].
Proof.
  unfold announcements. rewrite seq_S, map_app. reflexivity.
Qed.

Lemma handshake_is_announced (p : Postmate) (w : window) (o : string) :
  is_handshake_post (PostMessage w (obj_handshake p) o) = true.
Proof. reflexivity. Qed.

Section Announcing.

Variables (max : nat) (mid now : Z) (p : Postmate).

Let start : Parent := new_Postmate (Z.of_nat max) mid now p.

Lemma loaded_start :
  (1 <= max)%nat ->
  loaded start
  = (announcing max mid now p 0,
     [ Log Debug ("Parent: Sending handshake attempt " ++ string_of_Z 1);
       PostMessage (child p) (obj_handshake p) (childOrigin p);
       SetInterval period ]).
Proof.
  intros H. unfold loaded, doSend, start, new_Postmate.
  cbn [hs attempt maxHandshakeRequests Z.add].
  destruct (Z.gtb_spec 1 (Z.of_nat max)) as [G|_]; [lia|].
  cbn -[period string_of_Z String.append]. unfold announcing.
  same_state.
Qed.

Lemma tick_announcing (j : nat) :
  (S j < max)%nat ->
  tick (announcing max mid now p j) 1
  = (announcing max mid now p (S j),
     [ Log Debug ("Parent: Sending handshake attempt " ++ string_of_Z (Z.of_nat (S j) + 1));
       PostMessage (child p) (obj_handshake p) (childOrigin p) ]).
Proof.
  intros H. unfold tick, announcing. cbn [timers lookup_timer Nat.eqb].
  unfold doSend. cbn [hs attempt maxHandshakeRequests].
  destruct (Z.gtb_spec (Z.of_nat j + 1 + 1) (Z.of_nat max)) as [G|_]; [lia|].
  unfold with_hs, rearm.
  cbn [maxHandshakeRequests messageId clock timers nextTimer self hs api
       responseInterval replying outcome map fst snd Nat.eqb].
  replace (Z.of_nat (S j)) with (Z.of_nat j + 1)%Z by lia.
  same_state.
Qed.

Lemma tick_last (j : nat) :
  S j = max ->
  tick (announcing max mid now p j) 1
  = (timed_out max mid now p,
     [ ClearInterval;
       Log Error "Parent: Handshake Timeout Reached";
       Reject HandshakePromise "Handshake Timeout Reached" ]).
Proof.
  intros H. unfold tick, announcing. cbn [timers lookup_timer Nat.eqb].
  unfold doSend. cbn [hs attempt maxHandshakeRequests].
  destruct (Z.gtb_spec (Z.of_nat j + 1 + 1) (Z.of_nat max)) as [_|G]; [|lia].
  unfold with_hs, clear, with_timers, rearm, timed_out.
  cbn [maxHandshakeRequests messageId clock timers nextTimer self hs api
       responseInterval replying outcome map fst snd Nat.eqb filter negb settle].
  same_state.
Qed.

Lemma tick_unarmed (s : Parent) (id : nat) :
  timers s = [] -> tick s id = (s, []).
Proof. unfold tick. intros ->. reflexivity. Qed.

Lemma run_unarmed (s : Parent) (n : nat) :
  timers s = [] -> run s (repeat (Tick 1) n) = (s, []).
Proof.
  intros H. induction n as [|n IH]; cbn [repeat run]; [reflexivity|].
  cbn [step]. rewrite (tick_unarmed s 1 H), IH. reflexivity.
Qed.

Lemma repeat_snoc {A : Type} (a : A) (n : nat) :
  repeat a (S n) = repeat a n ++ [a].
Proof.
  induction n as [|n IH]; [reflexivity|].
  cbn [repeat app] in *. rewrite <- IH. reflexivity.
Qed.

(** While the budget lasts, each firing posts the handshake envelope once. *)
Lemma run_announcing (j : nat) :
  (j < max)%nat ->
  exists trace,
    run start (Loaded :: repeat (Tick 1) j) = (announcing max mid now p j, trace)
    /\ stamped is_handshake_post trace = announcements p now (S j)
    /\ stamped settles_handshake trace = [].
Proof.
  induction j as [|j IH]; intros H.
  - cbn [repeat run step]. rewrite loaded_start by lia.
    eexists; split; [reflexivity|]. split.
    + cbn -[period string_of_Z String.append]. unfold announcements.
      cbn [seq map Z.of_nat]. same_state.
    + reflexivity.
  - destruct IH as (trace & R & P & Q); [lia|].
    change (Loaded :: repeat (Tick 1) (S j)) with ((Loaded :: repeat (Tick 1) j) ++ [Tick 1])
      || (rewrite repeat_snoc, app_comm_cons).
    rewrite run_app, R. cbn [fst snd run step].
    rewrite tick_announcing by exact H. cbn [fst snd].
    eexists; split; [reflexivity|]. split.
    + rewrite stamped_app, P, (announcements_S p now (S j)).
      f_equal.
    + rewrite stamped_app, Q. reflexivity.
Qed.

End Announcing.

Lemma stamped_map (f : action -> bool) (t : Z) (out : list action) :
  stamped f (map (pair t) out) = map (pair t) (filter f out).
Proof.
  induction out as [|a out IH]; [reflexivity|].
  cbn [map stamped filter snd]. destruct (f a); cbn [map]; [f_equal|]; exact IH.
Qed.

Lemma quiet_stamped (t : Z) (out : list action) :
  forallb quiet out = true ->
  stamped is_handshake_post (map (pair t) out) = []
  /\ stamped settles_handshake (map (pair t) out) = [].
Proof.
  induction out as [|a out IH]; cbn [forallb map stamped filter snd]; [split; reflexivity|].
  intros H. apply andb_true_iff in H as [Q H]. destruct (IH H) as [IH1 IH2].
  unfold quiet in Q. apply andb_true_iff in Q as [Q1 Q2].
  apply negb_true_iff in Q1, Q2. rewrite Q1, Q2. split; assumption.
Qed.

Lemma listener_quiet (p : Postmate) (a : ParentAPI) (e : MessageEvent) :
  forallb quiet (listener p a e) = true.
Proof.
  unfold listener.
  destruct (sanitize e _) as [[|]|]; try reflexivity.
  destruct (_ && _); [|reflexivity].
  destruct (to_key _); [|reflexivity].
  cbn [forallb quiet is_handshake_post settles_handshake negb andb].
  destruct (has_property _ _); [|reflexivity].
  destruct (read _ _) as [callbacks| | |]; try reflexivity.
  induction callbacks as [|cb callbacks IH]; [reflexivity|exact IH].
Qed.

Lemma transact_quiet (p : Postmate) (uid : Z) (a : ParentAPI) (e : MessageEvent) :
  forallb quiet (snd (transact p uid a e)) = true.
Proof.
  unfold transact.
  destruct (nullish _); [reflexivity|].
  destruct (_ && _); reflexivity.
Qed.

Lemma transact_all_quiet (p : Postmate) (uids : list Z) (a : ParentAPI) (e : MessageEvent) :
  forallb quiet (snd (transact_all p uids a e)) = true.
Proof.
  revert a. induction uids as [|uid uids IH]; intros a; cbn [transact_all]; [reflexivity|].
  pose proof (transact_quiet p uid a e) as Q.
  destruct (transact p uid a e) as [a1 out1].
  specialize (IH a1). destruct (transact_all p uids a1 e) as [a2 out2].
  cbn [snd] in *. rewrite forallb_app, Q, IH. reflexivity.
Qed.

Lemma step_acknowledged (s : Parent) (i : input) :
  acknowledged s -> not_a_load i ->
  acknowledged (fst (step s i)) /\ forallb quiet (snd (step s i)) = true.
Proof.
  intros (T & R & O) N. unfold step.
  destruct i as [|id|e|property|property payload|name cb|]; [contradiction N; reflexivity| | | | | |].
  - rewrite (tick_unarmed s id T). destruct (api s); repeat split; assumption.
  - unfold deliver. rewrite R.
    destruct (api s) as [a|]; [|repeat split; assumption].
    pose proof (transact_all_quiet (self s) (transacts a) a e) as Q.
    destruct (transact_all _ _ _ _) as [a3 out3]. cbn [fst snd app] in *.
    split; [repeat split; assumption|].
    rewrite forallb_app, Q, andb_true_r.
    destruct (listening a); [apply listener_quiet|reflexivity].
  - destruct (api s) as [a|]; [|repeat split; assumption].
    cbn [get generateNewMessageId with_api fst snd]. repeat split; assumption.
  - destruct (api s) as [a|]; repeat split; assumption.
  - destruct (api s) as [a|]; [|repeat split; assumption].
    unfold on. destruct (read _ _); cbn [fst snd with_api]; repeat split; assumption.
  - destruct (api s) as [a|]; [|repeat split; assumption].
    unfold destroy. destruct (attached a); cbn [fst snd with_api]; repeat split; assumption.
Qed.

Lemma run_acknowledged (s : Parent) (later : list input) :
  acknowledged s -> Forall not_a_load later ->
  acknowledged (fst (run s later))
  /\ stamped is_handshake_post (snd (run s later)) = []
  /\ stamped settles_handshake (snd (run s later)) = [].
Proof.
  revert s. induction later as [|i later IH]; intros s A F; cbn [run].
  - repeat split; apply A.
  - inversion F as [|? ? N F']; subst.
    destruct (step_acknowledged s i A N) as [A1 Q].
    destruct (step s i) as [s1 out1]. cbn [fst snd] in *.
    destruct (IH s1 A1 F') as (A2 & P2 & S2).
    destruct (run s1 later) as [s2 out2]. cbn [fst snd] in *.
    destruct (quiet_stamped (clock s1) out1 Q) as [P1 S1].
    rewrite !stamped_app, P1, S1, P2, S2. repeat split; try reflexivity; apply A2.
Qed.

Section Settling.

Variables (max : nat) (mid now : Z) (p : Postmate).

Let start : Parent := new_Postmate (Z.of_nat max) mid now p.

(** The acknowledgment [e] arrives after attempt [j + 1]. *)
Lemma reply_acknowledges (j : nat) (e : MessageEvent) :
  valid_ack p e ->
  exists s out,
    deliver (announcing max mid now p j) e = (s, out)
    /\ acknowledged s
    /\ clock s = (now + period * Z.of_nat j)%Z
    /\ filter is_handshake_post out = []
    /\ filter settles_handshake out = [Resolve HandshakePromise WithParentAPI].
Proof.
  intros (S & C & K). unfold deliver, announcing. cbn [api hs replying].
  unfold reply. cbn [self]. rewrite S, C, K.
  cbn [is_num is_str negb]. rewrite Z.eqb_refl, String.eqb_refl. cbn [negb].
  eexists. eexists. split; [reflexivity|].
  split; [|split; [reflexivity|split; reflexivity]].
  repeat split.
Qed.

(** Without acknowledgment: [max] announcements, one period apart, then the
    timeout. *)
Lemma handshake_times_out (n : nat) :
  (1 <= max)%nat -> (max <= n)%nat ->
  let result := run start (Loaded :: repeat (Tick 1) n) in
  stamped is_handshake_post (snd result) = announcements p now max
  /\ stamped settles_handshake (snd result)
     = [((now + period * Z.of_nat max)%Z, Reject HandshakePromise "Handshake Timeout Reached")]
  /\ outcome (hs (fst result)) = Rejected "Handshake Timeout Reached"
  /\ timers (fst result) = [].
Proof.
  intros H1 Hn result. subst result.
  replace n with ((max - 1) + (1 + (n - max)))%nat by lia.
  rewrite repeat_app, app_comm_cons, run_app.
  destruct (run_announcing max mid now p (max - 1)) as (trace & R & P & Q); [lia|].
  fold start in R. rewrite R. cbn [fst snd repeat Nat.add run step].
  rewrite (tick_last max mid now p (max - 1)) by lia.
  rewrite (run_unarmed (timed_out max mid now p) (n - max) eq_refl).
  cbn [fst snd]. rewrite !stamped_app, P, Q.
  replace (S (max - 1)) with max by lia.
  repeat split. rewrite app_nil_r. reflexivity.
Qed.

(** With an acknowledgment after attempt [k]: [k] announcements, one
    resolution, and nothing of the handshake afterwards. *)
Lemma handshake_settles_once (k : nat) (ack : MessageEvent) (later : list input) :
  (1 <= k <= max)%nat -> valid_ack p ack -> Forall not_a_load later ->
  let result :=
    run start (Loaded :: repeat (Tick 1) (k - 1) ++ Message ack :: later) in
  stamped is_handshake_post (snd result) = announcements p now k
  /\ stamped settles_handshake (snd result)
     = [((now + period * Z.of_nat (k - 1))%Z, Resolve HandshakePromise WithParentAPI)]
  /\ outcome (hs (fst result)) = Resolved WithParentAPI
  /\ timers (fst result) = [].
Proof.
  intros Hk V F result. subst result.
  rewrite app_comm_cons, run_app.
  destruct (run_announcing max mid now p (k - 1)) as (trace & R & P & Q); [lia|].
  fold start in R. rewrite R. cbn [fst snd run step].
  destruct (reply_acknowledges (k - 1) ack V) as (s & out & D & A & T & P1 & Q1).
  rewrite D.
  destruct (run_acknowledged s later A F) as (A2 & P2 & Q2).
  destruct (run s later) as [s2 out2]. cbn [fst snd] in *.
  rewrite !stamped_app, P, Q, P2, Q2, T.
  replace (S (k - 1)) with k by lia.
  rewrite !stamped_map, P1, Q1. cbn [map app]. rewrite !app_nil_r.
  repeat split; apply A2.
Qed.

End Settling.

(** C4, as stated, fails: the first announcement is acknowledged, the frame
    loads again, and the interval armed by that load fires: four more
    handshake envelopes are posted after the acknowledgment, a new interval is
    armed, and [reject] is called once the budget is exhausted. *)
Lemma reload_after_ack_announces_again :
  let reloaded := run (new_Postmate Postmate_maxHandshakeRequests 0 0 sample_postmate)
                      ([Loaded; Message sample_ack] ++ Loaded :: repeat (Tick 2) 5) in
  valid_ack sample_postmate sample_ack
  /\ stamped is_handshake_post (snd reloaded)
     = map (fun t => (t, PostMessage (Window 1) (obj_handshake sample_postmate)
                                     "https://child.example"))
           [0; 0; 500; 1000; 1500]%Z
  /\ stamped settles_handshake (snd reloaded)
     = [ (0%Z, Resolve HandshakePromise WithParentAPI);
         (2000%Z, Reject HandshakePromise "Handshake Timeout Reached") ]
  /\ timers (fst (run (new_Postmate Postmate_maxHandshakeRequests 0 0 sample_postmate)
                      [Loaded; Message sample_ack; Loaded]))
     = [(2%nat, 500%Z)].
Proof.
  split; [|split; [|split]]; try reflexivity.
  repeat split.
Qed.

(** C4, amended: a handshake that is never acknowledged posts its envelope
    exactly [max] times, [period] = 500 apart from the load of the frame on,
    and is then rejected with the timeout reason, however long the interval is
    left to fire; a handshake acknowledged after attempt [k <= max] has posted
    [k] envelopes, is resolved by that one acknowledgment, has no interval
    armed, and whatever happens later, as long as the frame does not load
    again, posts no handshake envelope and settles nothing again.  The class
    sets [max] to 5. *)
Theorem handshake_retry_policy (max : nat) (mid now : Z) (p : Postmate) :
  (1 <= max)%nat ->
  Postmate_maxHandshakeRequests = 5%Z
  /\ period = 500%Z
  /\ (forall n, (max <= n)%nat ->
        let result := run (new_Postmate (Z.of_nat max) mid now p)
                          (Loaded :: repeat (Tick 1) n) in
        stamped is_handshake_post (snd result) = announcements p now max
        /\ stamped settles_handshake (snd result)
           = [((now + period * Z.of_nat max)%Z,
               Reject HandshakePromise "Handshake Timeout Reached")]
        /\ outcome (hs (fst result)) = Rejected "Handshake Timeout Reached"
        /\ timers (fst result) = [])
  /\ (forall k ack later,
        (1 <= k <= max)%nat -> valid_ack p ack -> Forall not_a_load later ->
        let result := run (new_Postmate (Z.of_nat max) mid now p)
                          (Loaded :: repeat (Tick 1) (k - 1) ++ Message ack :: later) in
        stamped is_handshake_post (snd result) = announcements p now k
        /\ stamped settles_handshake (snd result)
           = [((now + period * Z.of_nat (k - 1))%Z,
               Resolve HandshakePromise WithParentAPI)]
        /\ outcome (hs (fst result)) = Resolved WithParentAPI
        /\ timers (fst result) = []).
Proof.
  intros H. split; [reflexivity|]. split; [reflexivity|]. split.
  - intros n Hn. apply handshake_times_out; assumption.
  - intros k ack later Hk V F. apply handshake_settles_once; assumption.
Qed.

Lemma handshake_retry_policy_witness :
  (let result := run (new_Postmate 5 0 0 sample_postmate)
                     (Loaded :: repeat (Tick 1) 7) in
   stamped is_handshake_post (snd result) = announcements sample_postmate 0 5
   /\ stamped settles_handshake (snd result)
      = [((0 + period * Z.of_nat 5)%Z,
          Reject HandshakePromise "Handshake Timeout Reached")]
   /\ outcome (hs (fst result)) = Rejected "Handshake Timeout Reached"
   /\ timers (fst result) = [])
  /\ (let result := run (new_Postmate 5 0 0 sample_postmate)
                        (Loaded :: repeat (Tick 1) (2 - 1)
                           ++ Message sample_ack :: [Tick 1; Message sample_ack]) in
      stamped is_handshake_post (snd result) = announcements sample_postmate 0 2
      /\ stamped settles_handshake (snd result)
         = [((0 + period * Z.of_nat (2 - 1))%Z,
             Resolve HandshakePromise WithParentAPI)]
      /\ outcome (hs (fst result)) = Resolved WithParentAPI
      /\ timers (fst result) = []).
Proof.
  pose proof (handshake_retry_policy 5 0 0 sample_postmate
                (le_S _ _ (le_S _ _ (le_S _ _ (le_S _ _ (le_n 1))))))
    as (_ & _ & T & A).
  split.
  - apply (T 7%nat). repeat constructor.
  - apply (A 2%nat sample_ack [Tick 1; Message sample_ack]).
    + split; repeat constructor.
    + repeat split.
    + repeat constructor; discriminate.
Defined.


(** ** The initiator's API *)

Lemma is_num_eq (v : value) (n : Z) : is_num v n = true -> v = VNum n.
Proof.
  destruct v; cbn [is_num]; try discriminate.
  intros H. apply Z.eqb_eq in H. congruence.
Qed.

Lemma is_str_eq (v : value) (s : string) : is_str v s = true -> v = VStr s.
Proof.
  destruct v; cbn [is_str]; try discriminate.
  intros H. apply String.eqb_eq in H. congruence.
Qed.

(** What [get] does, and what its listener accepts. *)
Lemma get_registers_and_requests (s : Parent) (a : ParentAPI) (property : value) :
  let uid := increment (messageId s) in
  get s a property
  = (mkParent (maxHandshakeRequests s) uid (clock s) (timers s) (nextTimer s)
              (self s) (hs s)
              (Some (mkParentAPI (p_childOrigin a) (events a) (listening a) (attached a)
                                 (transacts a ++ [uid]) (answers a))),
     [PostMessage (child (self s)) (obj_request property uid) (p_childOrigin a)],
     GetPromise uid).
Proof. reflexivity. Qed.

Lemma transact_accepts (p : Postmate) (uid : Z) (a : ParentAPI) (e : MessageEvent) :
  nullish (data e) = false ->
  field (data e) "uid" = VNum uid ->
  field (data e) "postmate" = VStr "reply" ->
  field (data e) "childId" = VNum (childId p) ->
  transact p uid a e
  = (mkParentAPI (p_childOrigin a) (events a) (listening a) (attached a)
                 (remove_uid uid (transacts a))
                 (answers a ++ [(uid, field (data e) "value")]),
     [Resolve (GetPromise uid) (WithValue (field (data e) "value"))]).
Proof.
  intros N U K C. unfold transact. rewrite N, U, K, C.
  cbn [is_num is_str]. rewrite !Z.eqb_refl, String.eqb_refl. reflexivity.
Qed.

Lemma transact_gate (p : Postmate) (uid : Z) (a : ParentAPI) (e : MessageEvent)
    (r : resolution) :
  In (Resolve (GetPromise uid) r) (snd (transact p uid a e)) ->
  field (data e) "uid" = VNum uid
  /\ field (data e) "postmate" = VStr "reply"
  /\ field (data e) "childId" = VNum (childId p).
Proof.
  unfold transact. destruct (nullish _); [intros [F|[]]; discriminate F|].
  destruct (is_num (field (data e) "uid") uid) eqn:U; [|intros []].
  destruct (is_str (field (data e) "postmate") "reply") eqn:K; [|intros []].
  destruct (is_num (field (data e) "childId") (childId p)) eqn:C; [|intros []].
  intros _. auto using is_num_eq, is_str_eq.
Qed.

(** C5: [get] draws the correlation identifier 1 and posts its request; a
    message from another origin, with no [type], that [sanitize] rejects for
    the child's origin, then resolves the promise with its value. *)
Theorem get_resolves_on_unsanitized_reply :
  sanitize forged_reply (VStr "https://child.example") = Normal false
  /\ snd (run established [Get (VStr "height"); Message forged_reply])
     = [ (0%Z, PostMessage (Window 1) (obj_request (VStr "height") 1)
                           "https://child.example");
         (0%Z, Resolve (GetPromise 1) (WithValue (VStr "forged"))) ].
Proof. split; reflexivity. Qed.

(** C6, as stated, fails: the request posted by [get] has no [childId]. *)
Lemma request_envelope_lacks_instance_id :
  exists target envelope targetOrigin,
    snd (step established (Get (VStr "height")))
    = [PostMessage target envelope targetOrigin]
    /\ field envelope "childId" <> VNum (childId (self established)).
Proof.
  eexists. eexists. eexists. split; [reflexivity|]. discriminate.
Qed.

Section InstanceIdentifier.

Variable returns : func -> value.

Lemma resolveValue_posts_nothing (model : object) (property : value)
    (calls : list action) (result : completion (option value))
    (t : window) (envelope : value) (o : string) :
  resolveValue returns model property = (calls, result) ->
  ~ In (PostMessage t envelope o) calls.
Proof.
  unfold resolveValue, unwrap, invoke_inherited. intros R H.
  repeat match type of R with
         | context [match ?c with _ => _ end] => destruct c
         end;
    injection R as <- <-; none_of H.
Qed.

Lemma child_listener_posts (api : ChildAPI) (e : MessageEvent)
    (t : window) (envelope : value) (o : string) :
  In (PostMessage t envelope o) (child_listener returns api e) ->
  exists v, envelope = obj_reply (field (data e) "property") (api_childId api)
                                 (field (data e) "uid") v.
Proof.
  unfold child_listener.
  destruct (sanitize e _) as [[|]|]; [|intros []|intros [F|[]]; discriminate F].
  intros [F|H]; [discriminate F|revert H].
  destruct (is_str _ "call").
  - destruct (to_key _); [|intros H; none_of H].
    destruct (model_has _ _); [|intros []].
    destruct (model_get _ _); intros H; none_of H.
  - destruct (resolveValue _ _ _) as [calls result] eqn:R.
    intros H. apply in_app_or in H as [H|H].
    + exfalso. exact (resolveValue_posts_nothing _ _ _ _ _ _ _ R H).
    + destruct result as [[v|]|]; try none_of H.
      destruct H as [H|[]]. injection H as <- <- <-. exists v. reflexivity.
Qed.

(** C6, amended: what the responder posts from the handshake on (the
    handshake reply, every reply, every emission) carries the instance
    identifier of the handshake it accepted; the request of [get] and the
    envelope of [call] carry none. *)
Theorem responder_envelopes_carry_instance_id (s : Model) (e : MessageEvent) :
  field (data e) "postmate" = VStr "handshake" ->
  let id := field (data e) "childId" in
  (forall t envelope o,
      In (PostMessage t envelope o) (snd (shake s e)) ->
      field envelope "childId" = id)
  /\ (exists api,
        m_api (fst (shake s e)) = Some api
        /\ (forall e' t envelope o,
              In (PostMessage t envelope o) (child_listener returns api e') ->
              field envelope "childId" = id)
        /\ (forall name payload t envelope o,
              In (PostMessage t envelope o) (emit api name payload) ->
              field envelope "childId" = id))
  /\ (forall s' a property t envelope o,
        In (PostMessage t envelope o) (snd (fst (get s' a property))) ->
        field envelope "childId" = VUndefined)
  /\ (forall p a property payload t envelope o,
        In (PostMessage t envelope o) (call p a property payload) ->
        field envelope "childId" = VUndefined).
Proof.
  intros K id. rewrite (shake_accepts s e K). cbn [fst snd m_api].
  repeat split.
  - intros t envelope o H.
    apply in_app_or in H as [H|H].
    + destruct H as [F|[F|[H|[]]]]; try discriminate.
      injection H as <- <- <-. reflexivity.
    + apply in_app_or in H as [H|H]; [destruct (truthy _)|]; none_of H.
  - eexists. split; [reflexivity|]. split.
    + intros e' t envelope o H.
      destruct (child_listener_posts _ _ _ _ _ H) as [v ->]. reflexivity.
    + intros name payload t envelope o [F|[H|[]]]; [discriminate F|].
      injection H as <- <- <-. reflexivity.
  - intros s' a property t envelope o [H|[]]. injection H as <- <- <-. reflexivity.
  - intros p a property payload t envelope o [H|[]]. injection H as <- <- <-. reflexivity.
Qed.

End InstanceIdentifier.

Lemma responder_envelopes_carry_instance_id_witness :
  field (obj_handshake_reply (VNum 1)) "childId" = VNum 1
  /\ field (obj_request (VStr "height") 1) "childId" = VUndefined.
Proof.
  pose proof (responder_envelopes_carry_instance_id (fun _ => VNum 170)
                (new_Model (Window 1) (Window 0) sample_model) sample_handshake
                eq_refl) as (H & _ & G & _).
  split.
  - apply (H (Window 0) (obj_handshake_reply (VNum 1)) "https://parent.example").
    right. right. left. reflexivity.
  - apply (G established (new_ParentAPI "https://child.example") (VStr "height")
             (Window 1) (obj_request (VStr "height") 1) "https://child.example").
    left. reflexivity.
Defined.

(** ** Destruction *)

Lemma transact_all_outputs (p : Postmate) (uids : list Z) (a : ParentAPI)
    (e : MessageEvent) (x : action) :
  In x (snd (transact_all p uids a e)) ->
  x = Throw \/ exists uid v, x = Resolve (GetPromise uid) (WithValue v).
Proof.
  revert a. induction uids as [|uid uids IH]; intros a; cbn [transact_all]; [intros []|].
  destruct (transact p uid a e) as [a1 out1] eqn:T.
  specialize (IH a1). destruct (transact_all p uids a1 e) as [a2 out2].
  cbn [snd] in *. intros H. apply in_app_or in H as [H|H]; [|exact (IH H)].
  unfold transact in T. destruct (nullish _).
  - injection T as <- <-. destruct H as [<-|[]]. left. reflexivity.
  - destruct (_ && _); injection T as <- <-; [|destruct H].
    destruct H as [<-|[]]. right. eexists. eexists. reflexivity.
Qed.

Lemma transact_all_resolves (p : Postmate) (uids : list Z) (a : ParentAPI)
    (e : MessageEvent) (uid : Z) :
  In uid uids ->
  nullish (data e) = false ->
  field (data e) "uid" = VNum uid ->
  field (data e) "postmate" = VStr "reply" ->
  field (data e) "childId" = VNum (childId p) ->
  In (Resolve (GetPromise uid) (WithValue (field (data e) "value")))
     (snd (transact_all p uids a e)).
Proof.
  intros I N U K C. revert a.
  induction uids as [|u uids IH]; intros a; [destruct I|]. cbn [transact_all].
  destruct (Z.eq_dec u uid) as [->|Hne].
  - rewrite (transact_accepts p uid a e N U K C).
    destruct (transact_all p uids _ e) as [a2 out2]. cbn [snd]. left. reflexivity.
  - destruct I as [E|I]; [contradiction|].
    destruct (transact p u a e) as [a1 out1].
    specialize (IH I a1). destruct (transact_all p uids a1 e) as [a2 out2].
    cbn [snd] in *. apply in_or_app. right. exact IH.
Qed.

(** C7, as stated, fails: a [get] is outstanding when [destroy] is called, and
    the reply that arrives afterwards, addressed to the pairing's instance
    identifier, still resolves it. *)
Lemma outstanding_get_survives_destroy :
  snd (run established [Get (VStr "height"); Destroy; Message sample_reply])
  = [ (0%Z, PostMessage (Window 1) (obj_request (VStr "height") 1)
                        "https://child.example");
      (0%Z, Log Debug "Parent: Destroying Postmate instance");
      (0%Z, RemoveFrame);
      (0%Z, Resolve (GetPromise 1) (WithValue (VNum 42))) ].
Proof. reflexivity. Qed.

(** [doSend] touches the handshake and the intervals only. *)
Lemma doSend_frame (s : Parent) :
  api (fst (doSend s)) = api s
  /\ replying (hs (fst (doSend s))) = replying (hs s)
  /\ self (fst (doSend s)) = self s
  /\ forall f args, ~ In (Invoke f args) (snd (doSend s)).
Proof.
  unfold doSend. destruct (_ >? _)%Z; cbn [fst snd with_hs hs replying api self].
  - unfold clear. destruct (responseInterval (hs s));
      repeat split; try reflexivity; intros f args H; none_of H.
  - repeat split. intros f args H; none_of H.
Qed.

Lemma transact_all_frame (p : Postmate) (uids : list Z) (a : ParentAPI)
    (e : MessageEvent) (uid : Z) :
  listening (fst (transact_all p uids a e)) = listening a
  /\ attached (fst (transact_all p uids a e)) = attached a
  /\ (field (data e) "uid" <> VNum uid -> In uid (transacts a) ->
      In uid (transacts (fst (transact_all p uids a e)))).
Proof.
  revert a. induction uids as [|u uids IH]; intros a; [repeat split; auto|].
  cbn [transact_all].
  assert (T : listening (fst (transact p u a e)) = listening a
              /\ attached (fst (transact p u a e)) = attached a
              /\ (field (data e) "uid" <> VNum uid -> In uid (transacts a) ->
                  In uid (transacts (fst (transact p u a e))))).
  { unfold transact. destruct (nullish _); [repeat split; auto|].
    destruct (is_num _ u) eqn:U; cbn [andb]; [|repeat split; auto].
    destruct (_ && _); cbn [fst listening attached transacts]; [|repeat split; auto].
    split; [reflexivity|]. split; [reflexivity|].
    intros D I. unfold remove_uid. apply filter_In.
    split; [exact I|]. apply is_num_eq in U.
    destruct (Z.eqb_spec uid u) as [->|_]; [contradiction|reflexivity]. }
  destruct (transact p u a e) as [a1 out1]. cbn [fst] in T.
  specialize (IH a1). destruct (transact_all p uids a1 e) as [a2 out2].
  cbn [fst] in *. destruct T as (T1 & T2 & T3), IH as (I1 & I2 & I3).
  split; [congruence|]. split; [congruence|auto].
Qed.

(** The [Postmate] instance of a window is the same throughout. *)
Lemma step_self (s : Parent) (i : input) : self (fst (step s i)) = self s.
Proof.
  unfold step. destruct i as [|id|e|property|property payload|name cb|].
  - unfold loaded. destruct (doSend_frame s) as (_ & _ & P & _).
    destruct (doSend s) as [s1 out1]. exact P.
  - unfold tick. destruct (lookup_timer id (timers s)); [|reflexivity].
    match goal with |- context [doSend ?t] =>
      destruct (doSend_frame t) as (_ & _ & P & _); exact P end.
  - assert (R : self (fst (if replying (hs s) then reply s e else (s, []))) = self s).
    { destruct (replying (hs s)); [|reflexivity]. unfold reply.
      destruct (sanitize e _) as [[|]|]; try reflexivity.
      destruct (negb _); [reflexivity|]. destruct (is_str _ _); [|reflexivity].
      unfold clear. destruct (responseInterval (hs s)); reflexivity. }
    unfold deliver. destruct (if replying (hs s) then reply s e else (s, [])) as [s1 out1].
    destruct (api s); [|exact R]. destruct (transact_all _ _ _ _). exact R.
  - destruct (api s); reflexivity.
  - destruct (api s); reflexivity.
  - destruct (api s); [|reflexivity]. unfold on. destruct (read _ _); reflexivity.
  - destruct (api s); [|reflexivity]. unfold destroy. destruct (attached _); reflexivity.
Qed.

Lemma run_self (inputs : list input) (s : Parent) : self (fst (run s inputs)) = self s.
Proof.
  revert s. induction inputs as [|i inputs IH]; intros s; [reflexivity|].
  cbn [run]. pose proof (step_self s i) as E. destruct (step s i) as [s1 out1].
  specialize (IH s1). destruct (run s1 inputs) as [s2 out2]. cbn [fst] in *. congruence.
Qed.

(** Once the API exists, [reply] is no longer registered: the API stays, and
    once [this.listener] is removed it stays removed and no callback is
    invoked. *)
Lemma step_established (s : Parent) (i : input) (a : ParentAPI) :
  api s = Some a -> replying (hs s) = false ->
  replying (hs (fst (step s i))) = false
  /\ exists b, api (fst (step s i)) = Some b
               /\ (attached a = false -> attached b = false)
               /\ (listening a = false ->
                   listening b = false
                   /\ forall f args, ~ In (Invoke f args) (snd (step s i))).
Proof.
  intros A R. unfold step.
  destruct i as [|id|e|property|property payload|name cb|].
  - unfold loaded. destruct (doSend_frame s) as (A1 & R1 & _ & N1).
    destruct (doSend s) as [s1 out1]. cbn [fst snd hs replying api] in *.
    split; [congruence|]. exists a. split; [congruence|]. split; [auto|]. intros L.
    split; [exact L|]. intros f args H. apply in_app_or in H as [H|H].
    + exact (N1 f args H).
    + none_of H.
  - unfold tick. destruct (lookup_timer id (timers s)).
    + match goal with |- context [doSend ?t] =>
        destruct (doSend_frame t) as (A1 & R1 & _ & N1) end.
      cbn [api hs] in A1, R1. split; [congruence|]. exists a.
      split; [congruence|]. split; [auto|]. intros L. split; [exact L|exact N1].
    + cbn [fst snd]. split; [exact R|]. exists a. split; [exact A|]. split; [auto|].
      intros L. split; [exact L|]. intros f args [].
  - unfold deliver. rewrite A, R.
    pose proof (transact_all_frame (self s) (transacts a) a e 0) as (L3 & T3 & _).
    pose proof (transact_all_outputs (self s) (transacts a) a e) as O3.
    destruct (transact_all _ _ _ _) as [a3 out3]. cbn [fst snd with_api hs api app] in *.
    split; [exact R|]. exists a3. split; [reflexivity|]. split; [congruence|]. intros L.
    split; [congruence|]. rewrite L. intros f args H.
    destruct (O3 _ H) as [F|(u & v & F)]; discriminate F.
  - rewrite A. cbn [get generateNewMessageId with_api fst snd hs api listening attached].
    split; [exact R|]. eexists. split; [reflexivity|]. split; [auto|]. intros L.
    split; [exact L|]. intros f args H; none_of H.
  - rewrite A. cbn [fst snd]. split; [exact R|]. exists a. split; [exact A|].
    split; [auto|]. intros L. split; [exact L|]. unfold call. intros f args H; none_of H.
  - rewrite A. unfold on. destruct (read _ _); cbn [fst snd with_api hs api];
      (split; [exact R|]); eexists; (split; [reflexivity|]); (split; [auto|]); intros L;
      (split; [exact L|]); intros f args H; none_of H.
  - rewrite A. unfold destroy. destruct (attached a); cbn [fst snd with_api hs api];
      (split; [exact R|]); eexists; (split; [reflexivity|]); (split; [auto|]); intros L;
      (split; [reflexivity|]); intros f args H; none_of H.
Qed.

(** In a window that started with [new Postmate], an API exists only after
    [reply] has removed itself. *)
Lemma run_reachable (inputs : list input) (s : Parent) :
  (api s <> None -> replying (hs s) = false) ->
  api (fst (run s inputs)) <> None -> replying (hs (fst (run s inputs))) = false.
Proof.
  revert s. induction inputs as [|i inputs IH]; intros s J; [exact J|].
  cbn [run].
  assert (J1 : api (fst (step s i)) <> None -> replying (hs (fst (step s i))) = false).
  { destruct (api s) as [a|] eqn:A.
    - intros _. apply (step_established s i a A). apply J. discriminate.
    - unfold step. rewrite A.
      destruct i as [|id|e|property|property payload|name cb|];
        try (cbn [fst]; rewrite A; intros F; contradiction F; reflexivity).
      + unfold loaded. destruct (doSend_frame s) as (A1 & _).
        destruct (doSend s) as [s1 out1]. cbn [fst api] in *.
        rewrite A1, A. intros F; contradiction F; reflexivity.
      + unfold tick. destruct (lookup_timer id (timers s));
          [|cbn [fst]; rewrite A; intros F; contradiction F; reflexivity].
        match goal with |- context [doSend ?t] =>
          destruct (doSend_frame t) as (A1 & _) end.
        cbn [api] in A1. rewrite A1, A. intros F; contradiction F; reflexivity.
      + unfold deliver. rewrite A.
        destruct (replying (hs s));
          [|cbn [fst]; rewrite A; intros F; contradiction F; reflexivity].
        unfold reply. destruct (sanitize e _) as [[|]|];
          try (cbn [fst]; rewrite A; intros F; contradiction F; reflexivity).
        destruct (negb _); [cbn [fst]; rewrite A; intros F; contradiction F; reflexivity|].
        destruct (is_str _ _); cbn [fst with_hs api hs replying].
        * reflexivity.
        * rewrite A. intros F; contradiction F; reflexivity. }
  destruct (step s i) as [s1 out1]. cbn [fst] in J1.
  specialize (IH s1 J1). destruct (run s1 inputs) as [s2 out2]. exact IH.
Qed.

Lemma run_removed (later : list input) (s : Parent) (a : ParentAPI) :
  api s = Some a -> replying (hs s) = false ->
  listening a = false -> attached a = false ->
  (exists b, api (fst (run s later)) = Some b
             /\ listening b = false /\ attached b = false)
  /\ forall t f args, ~ In (t, Invoke f args) (snd (run s later)).
Proof.
  revert s a. induction later as [|i later IH]; intros s a A R L T.
  { cbn [run fst snd]. split; [exists a; repeat split; assumption|]. intros t f args []. }
  cbn [run]. destruct (step_established s i a A R) as (R1 & b & A1 & T1 & K).
  destruct (K L) as [L1 N1].
  destruct (step s i) as [s1 out1]. cbn [fst snd] in *.
  destruct (IH s1 b A1 R1 L1 (T1 T)) as [E N2].
  destruct (run s1 later) as [s2 out2]. cbn [fst snd] in *.
  split; [exact E|]. intros t f args H. apply in_app_or in H as [H|H].
  - apply in_map_iff in H as (x & Hx & I). injection Hx as _ ->. exact (N1 f args I).
  - exact (N2 t f args H).
Qed.

(** Messages with other correlation identifiers leave a [get] outstanding. *)
Lemma run_outstanding (uid : Z) (messages : list MessageEvent) (s : Parent)
    (a : ParentAPI) :
  api s = Some a -> replying (hs s) = false -> In uid (transacts a) ->
  Forall (fun m => field (data m) "uid" <> VNum uid) messages ->
  replying (hs (fst (run s (map Message messages)))) = false
  /\ exists b, api (fst (run s (map Message messages))) = Some b
               /\ In uid (transacts b).
Proof.
  intros A R I F. revert s a A R I.
  induction F as [|m messages D F IH]; intros s a A R I.
  { cbn [map run fst]. split; [exact R|]. exists a. split; assumption. }
  cbn [map run].
  assert (K : replying (hs (fst (step s (Message m)))) = false
              /\ exists b, api (fst (step s (Message m))) = Some b
                           /\ In uid (transacts b)).
  { unfold step, deliver. rewrite A, R.
    pose proof (transact_all_frame (self s) (transacts a) a m uid) as (_ & _ & T).
    destruct (transact_all _ _ _ _) as [a3 out3]. cbn [fst with_api hs api] in *.
    split; [exact R|]. exists a3. split; [reflexivity|]. exact (T D I). }
  destruct (step s (Message m)) as [s1 out1]. cbn [fst] in K.
  destruct K as (R1 & b & A1 & I1). specialize (IH s1 b A1 R1 I1).
  destruct (run s1 (map Message messages)) as [s2 out2]. exact IH.
Qed.

(** C7, amended: [destroy] removes [this.listener] and the frame; from then
    on, whatever happens in the window, [this.listener] stays removed and no
    event callback is invoked; when no [get] is outstanding, messages do
    nothing at all; a [get] that is outstanding keeps its own listener, and
    after any messages that bear other correlation identifiers the reply
    that matches it still resolves it. *)
Theorem destroy_removes_persistent_listener
    (maxRequests mid now : Z) (p : Postmate) (history : list input) (a : ParentAPI) :
  let s := fst (run (new_Postmate maxRequests mid now p) history) in
  api s = Some a ->
  let a' := mkParentAPI (p_childOrigin a) (events a) false false
                        (transacts a) (answers a) in
  let s' := with_api s a' in
  fst (step s Destroy) = s'
  /\ (attached a = true ->
      snd (step s Destroy)
      = [Log Debug "Parent: Destroying Postmate instance"; RemoveFrame])
  /\ (forall later,
        (exists b, api (fst (run s' later)) = Some b
                   /\ listening b = false /\ attached b = false)
        /\ forall t f args, ~ In (t, Invoke f args) (snd (run s' later)))
  /\ (transacts a = [] ->
      forall messages, run s' (map Message messages) = (s', []))
  /\ (forall uid messages e,
        In uid (transacts a) ->
        Forall (fun m => field (data m) "uid" <> VNum uid) messages ->
        nullish (data e) = false ->
        field (data e) "uid" = VNum uid ->
        field (data e) "postmate" = VStr "reply" ->
        field (data e) "childId" = VNum (childId p) ->
        In (Resolve (GetPromise uid) (WithValue (field (data e) "value")))
           (map snd (snd (run s' (map Message messages ++ [Message e]))))).
Proof.
  intros s A a' s'.
  assert (R : replying (hs s) = false).
  { apply run_reachable; [intros F; contradiction F; reflexivity|].
    fold s. rewrite A. discriminate. }
  assert (P : self s = p) by apply run_self.
  split; [|split; [|split; [|split]]].
  - unfold step. rewrite A. unfold destroy. destruct (attached a); reflexivity.
  - intros T. unfold step. rewrite A. unfold destroy. rewrite T. reflexivity.
  - intros later. apply (run_removed later s' a'); reflexivity || exact R.
  - intros E messages. induction messages as [|m messages IH]; [reflexivity|].
    cbn [map run]. unfold step, deliver. subst s'. cbn [with_api api hs self].
    rewrite R. cbn [listening transacts a']. rewrite E. cbn [transact_all app].
    fold a'. change (with_api (with_api s a') a') with (with_api s a').
    rewrite IH. reflexivity.
  - intros uid messages e I F N U K C.
    destruct (run_outstanding uid messages s' a' eq_refl R I F) as (R2 & b & A2 & I2).
    rewrite run_app. cbn [snd]. rewrite map_app. apply in_or_app. right.
    pose proof (run_self (map Message messages) s') as P2.
    destruct (run s' (map Message messages)) as [s2 out2]. cbn [fst] in *.
    cbn [run]. unfold step, deliver. rewrite A2, R2.
    assert (C2 : field (data e) "childId" = VNum (childId (self s2))).
    { rewrite P2. subst s'. cbn [with_api self]. rewrite P. exact C. }
    pose proof (transact_all_resolves (self s2) (transacts b) b e uid I2 N U K C2) as T.
    destruct (transact_all _ _ _ _) as [a3 out3]. cbn [fst snd app] in *.
    rewrite app_nil_r, map_map. cbn [snd]. rewrite map_id.
    apply in_or_app. right. exact T.
Qed.

Lemma destroy_removes_persistent_listener_witness :
  fst (step (fst (run established [Get (VStr "height")])) Destroy)
  = with_api (fst (run established [Get (VStr "height")]))
             (mkParentAPI "https://child.example" [] false false [1%Z] [])
  /\ In (Resolve (GetPromise 1) (WithValue (VNum 42)))
        (map snd
           (snd (run (with_api (fst (run established [Get (VStr "height")]))
                               (mkParentAPI "https://child.example" [] false false
                                            [1%Z] []))
                     (map Message [forged_kind] ++ [Message sample_reply])))).
Proof.
  pose proof (destroy_removes_persistent_listener
                Postmate_maxHandshakeRequests 0 0 sample_postmate
                [Loaded; Message sample_ack; Get (VStr "height")]
                (mkParentAPI "https://child.example" [] true true [1%Z] [])
                eq_refl) as (D & _ & _ & _ & G).
  split; [exact D|].
  apply (G 1%Z [forged_kind] sample_reply); try reflexivity.
  - left. reflexivity.
  - constructor; [discriminate|constructor].
Defined.

(** ** The gates of the five listeners *)

(** C1, as stated, fails: the envelope that [call] sends carries no instance
    identifier, and the responder of pairing 1 acts on it; [shake] answers a
    handshake that bears no type tag; and the [transact] listener of a [get]
    resolves on a message from another origin that bears no type tag. *)
Lemma child_listener_acts_without_instance_id :
  (child_listener (fun _ => VUndefined) sample_api sample_call
   = [Log Debug "Child: Received request"; Invoke (UserFn 1) [VNum 3]]
   /\ api_childId sample_api = VNum 1
   /\ field (data sample_call) "childId" = VUndefined)
  /\ (In (PostMessage (Window 0) (obj_handshake_reply (VNum 1)) "https://parent.example")
         (snd (shake (new_Model (Window 1) (Window 0) sample_model) untagged_handshake))
      /\ field (data untagged_handshake) "type" = VUndefined)
  /\ (snd (transact sample_postmate 1
                    (mkParentAPI "https://child.example" [] true true [1%Z] [])
                    forged_reply)
      = [Resolve (GetPromise 1) (WithValue (VStr "forged"))]
      /\ field (data forged_reply) "type" = VUndefined
      /\ origin forged_reply <> childOrigin sample_postmate).
Proof.
  split; [|split].
  - repeat split.
  - split; [|reflexivity]. right. right. left. reflexivity.
  - split; [reflexivity|]. split; [reflexivity|]. discriminate.
Qed.

Section Gates.

Variable returns : func -> value.

(** C1, amended: the initiator's [reply] and [this.listener] act only on
    messages that bear the type tag, come from the expected origin and carry
    the pairing's instance identifier; the responder's listener acts only on
    messages that bear the type tag and come from the recorded parent origin;
    a [transact] listener resolves only on a reply with its correlation
    identifier and the pairing's instance identifier; [shake] acts on a
    message exactly when its [postmate] field is truthy. *)
Theorem listeners_gates (e : MessageEvent) :
  (forall s,
      acted (snd (reply s e)) = true ->
      field (data e) "type" = VStr messageType
      /\ origin e = childOrigin (self s)
      /\ field (data e) "childId" = VNum (childId (self s)))
  /\ (forall p a,
        acted (listener p a e) = true ->
        field (data e) "type" = VStr messageType
        /\ origin e = p_childOrigin a
        /\ field (data e) "childId" = VNum (childId p))
  /\ (forall api,
        acted (child_listener returns api e) = true ->
        field (data e) "type" = VStr messageType
        /\ origin e = api_parentOrigin api)
  /\ (forall p uid a,
        acted (snd (transact p uid a e)) = true ->
        field (data e) "postmate" = VStr "reply"
        /\ field (data e) "uid" = VNum uid
        /\ field (data e) "childId" = VNum (childId p))
  /\ (forall s,
        acted (snd (shake s e)) = true
        <-> truthy (field (data e) "postmate") = true).
Proof.
  split; [|split; [|split; [|split]]].
  - intros s H. unfold reply in H.
    destruct (sanitize e _) as [[|]|] eqn:S; try discriminate H.
    destruct (is_num _ _) eqn:C; [|discriminate H].
    apply sanitize_inv in S. apply is_num_eq in C. tauto.
  - intros p a H. unfold listener in H.
    destruct (sanitize e _) as [[|]|] eqn:S; try discriminate H.
    destruct (is_str _ _); [|discriminate H].
    destruct (is_num _ _) eqn:C; [|discriminate H].
    apply sanitize_inv in S. apply is_num_eq in C. tauto.
  - intros api H. unfold child_listener in H.
    destruct (sanitize e _) as [[|]|] eqn:S; try discriminate H.
    apply sanitize_inv in S. tauto.
  - intros p uid a H. unfold transact in H.
    destruct (nullish _); [discriminate H|].
    destruct (is_num _ uid) eqn:U; [|discriminate H].
    destruct (is_str _ _) eqn:K; [|discriminate H].
    destruct (is_num _ (childId p)) eqn:C; [|discriminate H].
    auto using is_num_eq, is_str_eq.
  - intros s. unfold shake. split.
    + intros H. destruct (nullish _); [discriminate H|].
      destruct (truthy _); [reflexivity|discriminate H].
    + intros T. rewrite T.
      destruct (data e) as [| |b|n|t|own]; try discriminate T;
        cbn [nullish negb]; destruct (is_str _ _); reflexivity.
Qed.

End Gates.

Lemma listeners_gates_witness :
  (field (data sample_call) "type" = VStr messageType
   /\ origin sample_call = api_parentOrigin sample_api)
  /\ (field (data sample_ack) "type" = VStr messageType
      /\ origin sample_ack = childOrigin sample_postmate
      /\ field (data sample_ack) "childId" = VNum (childId sample_postmate)).
Proof.
  split.
  - destruct (listeners_gates (fun _ => VNum 170) sample_call) as (_ & _ & G & _).
    apply (G sample_api). reflexivity.
  - destruct (listeners_gates (fun _ => VNum 170) sample_ack) as (G & _).
    apply (G (announcing 5 0 0 sample_postmate 0)). reflexivity.
Defined.

(** * Further properties of the source *)

(** ** The sanitizer, completely *)

Lemma found_truthy_messageTypes (k : string) :
  found_truthy (read messageTypes k) = recognized k || in_object_prototype k.
Proof.
  unfold read. rewrite recognized_own. unfold has_own, in_object_prototype.
  destruct (lookup k messageTypes) as [v|] eqn:L.
  - cbn [found_truthy orb]. exact (lookup_messageTypes_truthy k v L).
  - cbn [orb]. destruct (is_prototype_method k); [reflexivity|].
    destruct (k =? "__proto__")%string; reflexivity.
Qed.

(** X1: [sanitize] returns true exactly for a message from the allowed origin (when
    one is given) whose payload is an object with an own [postmate] key and the
    type tag, and whose kind converts to a key that [messageTypes] lists or
    that [Object.prototype] defines. *)
Theorem sanitize_accepts_iff (m : MessageEvent) (allowedOrigin : value) :
  sanitize m allowedOrigin = Normal true
  <-> (forall allowed, allowedOrigin = VStr allowed -> origin m = allowed)
      /\ exists own kind,
           data m = VObj own
           /\ has_own "postmate" own = true
           /\ field (data m) "type" = VStr messageType
           /\ to_key (field (data m) "postmate") = Some kind
           /\ recognized kind || in_object_prototype kind = true.
Proof.
  unfold sanitize. split.
  - intros H. split.
    + intros allowed ->.
      destruct (String.eqb_spec (origin m) allowed) as [E|_]; [exact E|discriminate H].
    + destruct (match allowedOrigin with VStr a => _ | _ => _ end); [discriminate H|].
      destruct (data m) as [| |b|n|s|own] eqn:D; try discriminate H.
      * destruct b; discriminate H.
      * cbn [truthy typeof_object andb] in H. destruct (negb (negb _)); discriminate H.
      * cbn [truthy typeof_object andb] in H. destruct (negb (negb _)); discriminate H.
      * cbn [truthy typeof_object negb andb] in H. unfold has_property in H.
        change (in_object_prototype "postmate") with false in H.
        rewrite orb_false_r in H.
        destruct (has_own "postmate" own) eqn:P; [|discriminate H].
        cbn [negb] in H.
        destruct (is_str (field (VObj own) "type") messageType) eqn:T; [|discriminate H].
        cbn [negb] in H.
        destruct (to_key (field (VObj own) "postmate")) as [kind|] eqn:K; [|discriminate H].
        rewrite found_truthy_messageTypes in H.
        destruct (recognized kind || in_object_prototype kind) eqn:R; [|discriminate H].
        exists own, kind. repeat split; try assumption; try reflexivity.
        apply is_str_eq. exact T.
  - intros (O & own & kind & D & P & T & K & R).
    assert (G : match allowedOrigin with
                | VStr allowed => negb (origin m =? allowed)%string
                | _ => false
                end = false).
    { destruct allowedOrigin; try reflexivity.
      rewrite (O s eq_refl), String.eqb_refl. reflexivity. }
    rewrite G, D in *. cbn [truthy typeof_object negb andb].
    unfold has_property. rewrite P. cbn [orb negb].
    rewrite T in *. cbn [is_str]. rewrite String.eqb_refl. cbn [negb].
    rewrite K, found_truthy_messageTypes, R. reflexivity.
Qed.

Lemma sanitize_accepts_iff_witness :
  sanitize (mkEvent "https://child.example" (Window 1) (marked "emit"))
           (VStr "https://child.example") = Normal true.
Proof.
  apply (proj2 (sanitize_accepts_iff _ _)). split.
  - intros allowed [= <-]. reflexivity.
  - exists [("postmate", VStr "emit"); ("type", VStr messageType)], "emit".
    repeat split.
Defined.

(** X2: every envelope the library builds passes [sanitize] when it comes from the
    expected origin. *)
Theorem library_envelopes_are_accepted
    (o : string) (w : window) (p : Postmate)
    (id property uid payload v : value) (n : Z) (name : string) :
  sanitize (mkEvent o w (obj_handshake p)) (VStr o) = Normal true
  /\ sanitize (mkEvent o w (obj_handshake_reply id)) (VStr o) = Normal true
  /\ sanitize (mkEvent o w (obj_request property n)) (VStr o) = Normal true
  /\ sanitize (mkEvent o w (obj_call property payload)) (VStr o) = Normal true
  /\ sanitize (mkEvent o w (obj_reply property id uid v)) (VStr o) = Normal true
  /\ sanitize (mkEvent o w (obj_emit id name payload)) (VStr o) = Normal true.
Proof.
  unfold sanitize. cbn [origin data]. rewrite String.eqb_refl.
  repeat split.
Qed.

(** ** Round trips *)

Lemma valid_ack_of_reply (p : Postmate) (w : window) :
  valid_ack p (mkEvent (childOrigin p) w (obj_handshake_reply (VNum (childId p)))).
Proof.
  unfold valid_ack, sanitize. cbn [origin data]. rewrite String.eqb_refl.
  repeat split.
Qed.

(** X3: the handshake, end to end: the responder answers the initiator's
    announcement with one message, sent to the announcing window at its
    origin, and records that origin and the instance identifier; that answer,
    arriving from the child's origin, is the acknowledgment the initiator
    waits for, whatever attempt it has reached. *)
Theorem handshake_round_trip
    (s : Model) (p : Postmate) (parentOrigin : string) (parentWindow childWindow : window)
    (max : nat) (mid now : Z) (j : nat) :
  let announcement := mkEvent parentOrigin parentWindow (obj_handshake p) in
  let answer := obj_handshake_reply (VNum (childId p)) in
  let ack := mkEvent (childOrigin p) childWindow answer in
  filter is_post (snd (shake s announcement))
  = [PostMessage parentWindow answer parentOrigin]
  /\ m_api (fst (shake s announcement))
     = Some (mkChildAPI (m_model (fst (shake s announcement))) (m_parent s)
                        parentOrigin (m_child s) (VNum (childId p)))
  /\ m_shaking (fst (shake s announcement)) = false
  /\ valid_ack p ack
  /\ outcome (hs (fst (deliver (announcing max mid now p j) ack)))
     = Resolved WithParentAPI
  /\ api (fst (deliver (announcing max mid now p j) ack))
     = Some (new_ParentAPI (childOrigin p)).
Proof.
  intros announcement answer ack.
  rewrite (shake_accepts s announcement eq_refl).
  cbn [fst snd m_api m_shaking m_model origin source data announcement].
  split; [|split; [reflexivity|split; [reflexivity|split]]].
  - rewrite !filter_app. cbn [filter is_post]. destruct (truthy _); reflexivity.
  - apply valid_ack_of_reply.
  - unfold deliver, announcing, reply. cbn [api hs replying self].
    destruct (valid_ack_of_reply p childWindow) as (S & C & K).
    fold answer in S, C, K. fold ack in S, C, K.
    rewrite S, C, K. cbn [is_num is_str negb].
    rewrite Z.eqb_refl, String.eqb_refl. split; reflexivity.
Qed.

Section RoundTrips.

Variable returns : func -> value.

Lemma inherited_function (m : object) (k : string) (f : func) :
  model_get m k = Fn f -> has_own k (props m) = false -> is_prototype_method k = true.
Proof.
  unfold model_get, has_own. destruct (lookup k (props m)); [discriminate 2|].
  intros G _. destruct (proto m) as [| |own]; [|discriminate G|].
  - destruct (is_prototype_method k); [reflexivity|].
    destruct (k =? "__proto__")%string; discriminate G.
  - destruct (lookup k own); [discriminate G|].
    destruct (is_prototype_method k); [reflexivity|].
    destruct (k =? "__proto__")%string; discriminate G.
Qed.

Lemma unwrap_posts_nothing (m : object) (k : string) :
  filter is_post (fst (unwrap returns m k)) = [].
Proof.
  unfold unwrap, invoke_inherited.
  repeat match goal with
         | |- context [match ?c with _ => _ end] => destruct c
         end; reflexivity.
Qed.

(** The read of a key that is not a method inherited from [Object.prototype]. *)
Lemma unwrap_ordinary (m : object) (k : string) :
  has_own k (props m) = true \/ is_prototype_method k = false ->
  unwrap returns m k = (accessor_calls m k, Normal (Some (resolved_value returns m k))).
Proof.
  intros H. unfold unwrap, accessor_calls, resolved_value.
  destruct (model_get m k) as [v|f|] eqn:G; try reflexivity.
  destruct (has_own k (props m)) eqn:O; [reflexivity|].
  rewrite (inherited_function m k f G O) in H. destruct H; discriminate.
Qed.

(** What the responder does with a sanitized message of another kind than
    [call] whose property converts to the key [k], when [k] is not a method the
    model inherits. *)
Lemma child_listener_answers (api : ChildAPI) (e : MessageEvent) (k : string) :
  sanitize e (VStr (api_parentOrigin api)) = Normal true ->
  field (data e) "postmate" <> VStr "call" ->
  to_key (field (data e) "property") = Some k ->
  has_own k (props (api_model api)) = true \/ is_prototype_method k = false ->
  child_listener returns api e
  = Log Debug "Child: Received request"
    :: accessor_calls (api_model api) k
    ++ [ PostMessage (source e)
           (obj_reply (field (data e) "property") (api_childId api)
                      (field (data e) "uid")
                      (resolved_value returns (api_model api) k))
           (origin e) ].
Proof.
  intros S K P O. unfold child_listener. rewrite S.
  assert (C : is_str (field (data e) "postmate") "call" = false).
  { destruct (field (data e) "postmate") as [| |b|n|t|o]; try reflexivity.
    cbn [is_str]. apply String.eqb_neq. congruence. }
  rewrite C. unfold resolveValue. rewrite P, (unwrap_ordinary _ _ O). reflexivity.
Qed.

(** X4: a property read, end to end: [get(name)] posts a request with the
    correlation identifier it drew; the responder that receives it from the
    origin it recorded posts one reply, to the requesting window at that
    origin, when the read of [model[name]] yields a value that can be cloned,
    and none when the read throws or yields the model itself with a function
    in it; a reply with that identifier and the instance identifier resolves
    the promise of that [get] with its value.  The read yields an own data
    property as it is, what an own function returns, undefined for a name the
    model does not have, and throws for the inherited [__defineGetter__] and
    [__defineSetter__]. *)
Theorem get_round_trip
    (s : Parent) (a a' : ParentAPI) (api : ChildAPI) (name : string)
    (w w' : window) (o' : string) :
  api_childId api = VNum (childId (self s)) ->
  let uid := snd (generateNewMessageId s) in
  let request := obj_request (VStr name) uid in
  let read := snd (unwrap returns (api_model api) name) in
  let answer := obj_reply (VStr name) (VNum (childId (self s))) (VNum uid) in
  snd (fst (get s a (VStr name)))
  = [PostMessage (child (self s)) request (p_childOrigin a)]
  /\ snd (get s a (VStr name)) = GetPromise uid
  /\ filter is_post (child_listener returns api (mkEvent (api_parentOrigin api) w request))
     = match read with
       | Normal (Some v) => [PostMessage w (answer v) (api_parentOrigin api)]
       | _ => []
       end
  /\ (forall v, snd (transact (self s) uid a' (mkEvent o' w' (answer v)))
                = [Resolve (GetPromise uid) (WithValue v)])
  /\ (forall v, lookup name (props (api_model api)) = Some (Data v) ->
                read = Normal (Some v))
  /\ (forall f, lookup name (props (api_model api)) = Some (Fn f) ->
                read = Normal (Some (returns f)))
  /\ (model_has (api_model api) name = false -> read = Normal (Some VUndefined))
  /\ (name = "__defineGetter__" \/ name = "__defineSetter__" ->
      proto (api_model api) = ObjectPrototype ->
      has_own name (props (api_model api)) = false ->
      read = TypeError).
Proof.
  intros C uid request read answer.
  split; [reflexivity|]. split; [reflexivity|]. split; [|split; [|split; [|split; [|split]]]].
  - set (e := mkEvent (api_parentOrigin api) w request).
    assert (S : sanitize e (VStr (api_parentOrigin api)) = Normal true)
      by (unfold sanitize, e; cbn [origin data]; rewrite String.eqb_refl; reflexivity).
    assert (K : is_str (field (data e) "postmate") "call" = false) by reflexivity.
    assert (P : field (data e) "property" = VStr name) by reflexivity.
    assert (U : field (data e) "uid" = VNum uid) by reflexivity.
    unfold child_listener. rewrite S, K, P, U.
    unfold resolveValue. cbn [to_key]. subst read.
    pose proof (unwrap_posts_nothing (api_model api) name) as N.
    destruct (unwrap returns (api_model api) name) as [calls result]. cbn [fst snd] in *.
    cbn [filter is_post]. rewrite filter_app, N, C.
    destruct result as [[v|]|]; reflexivity.
  - intros v.
    rewrite (transact_accepts (self s) uid a' (mkEvent o' w' (answer v))
               eq_refl eq_refl eq_refl eq_refl).
    reflexivity.
  - intros v L. subst read. unfold unwrap, model_get. rewrite L. reflexivity.
  - intros f L. subst read. unfold unwrap, model_get, has_own. rewrite L. reflexivity.
  - intros A. subst read. unfold unwrap. rewrite (model_get_absent _ _ A). reflexivity.
  - intros N P O. subst read. unfold unwrap, model_get. unfold has_own in *.
    destruct (lookup name (props (api_model api))); [discriminate O|].
    rewrite P. destruct N as [-> | ->]; reflexivity.
Qed.

End RoundTrips.

Lemma get_round_trip_witness :
  filter is_post
    (child_listener (fun _ => VNum 170) sample_api
       (mkEvent "https://parent.example" (Window 0)
                (obj_request (VStr "height") 1)))
  = [PostMessage (Window 0) (obj_reply (VStr "height") (VNum 1) (VNum 1) (VNum 170))
                 "https://parent.example"]
  /\ snd (unwrap (fun _ => VNum 170) sample_model "__defineGetter__") = TypeError.
Proof.
  split.
  - pose proof (get_round_trip (fun _ => VNum 170) established
                  (new_ParentAPI "https://child.example")
                  (new_ParentAPI "https://child.example") sample_api
                  "height" (Window 0) (Window 1) "https://child.example"
                  eq_refl) as (_ & _ & P & _).
    exact P.
  - pose proof (get_round_trip (fun _ => VNum 170) established
                  (new_ParentAPI "https://child.example")
                  (new_ParentAPI "https://child.example") sample_api
                  "__defineGetter__" (Window 0) (Window 1) "https://child.example"
                  eq_refl) as (_ & _ & _ & _ & _ & _ & _ & T).
    apply T; [left|..]; reflexivity.
Defined.

(** ** The event registry *)

Lemma register_keeps (a : ParentAPI) (name : string) (cbs : list func) :
  p_childOrigin (register a name cbs) = p_childOrigin a.
Proof.
  revert a. induction cbs as [|cb cbs IH]; intros a; [reflexivity|].
  unfold register in *. cbn [fold_left]. rewrite IH.
  unfold on. destruct (read (events a) name); reflexivity.
Qed.

Lemma on_ordinary (a : ParentAPI) (name : string) (cb : func) :
  in_object_prototype name = false ->
  lookup name (events (fst (on a name cb))) = Some (callbacks_of a name ++ [cb]).
Proof.
  intros N. unfold on, read, callbacks_of.
  unfold in_object_prototype in N. apply orb_false_iff in N as [M P].
  destruct (lookup name (events a)) as [l|] eqn:L.
  - cbn [fst events]. rewrite lookup_update, String.eqb_refl, L. reflexivity.
  - rewrite M, P. cbn [fst events]. rewrite lookup_app, L. cbn [lookup].
    rewrite String.eqb_refl. reflexivity.
Qed.

Lemma register_ordinary (a : ParentAPI) (name : string) (cbs : list func) :
  in_object_prototype name = false ->
  callbacks_of (register a name cbs) name = callbacks_of a name ++ cbs.
Proof.
  intros N. revert a. induction cbs as [|cb cbs IH]; intros a.
  - rewrite app_nil_r. reflexivity.
  - unfold register in *. cbn [fold_left]. rewrite IH.
    unfold callbacks_of at 1. rewrite (on_ordinary a name cb N).
    rewrite <- app_assoc. reflexivity.
Qed.

(** X5: callbacks registered by successive calls of [on] under a name that
    [Object.prototype] does not define are invoked by an emission of that name
    from the child (its origin, the pairing's identifier), each with the
    emitted data, in registration order, after those registered before; no
    other callback is invoked. *)
Theorem emit_invokes_callbacks_in_order
    (p : Postmate) (a : ParentAPI) (api : ChildAPI) (name : string)
    (cbs : list func) (payload : value) (w : window) :
  in_object_prototype name = false ->
  api_childId api = VNum (childId p) ->
  let emitted := obj_emit (api_childId api) name payload in
  filter is_post (emit api name payload)
  = [PostMessage (api_parent api) emitted (api_parentOrigin api)]
  /\ listener p (register a name cbs) (mkEvent (p_childOrigin a) w emitted)
     = Log Debug ("Parent: Received event emission: " ++ name)
       :: map (fun cb => Invoke cb [payload]) (callbacks_of a name ++ cbs).
Proof.
  intros N C emitted. split; [reflexivity|].
  unfold listener. rewrite register_keeps.
  replace (sanitize _ _) with (Normal true)
    by (unfold sanitize; cbn [origin data]; rewrite String.eqb_refl; reflexivity).
  subst emitted. rewrite C.
  cbn [data obj_emit field lookup]. cbn -[register String.append].
  rewrite Z.eqb_refl.
  pose proof (register_ordinary a name cbs N) as R. unfold callbacks_of in R at 1.
  unfold has_property, has_own, read. rewrite N, orb_false_r.
  destruct (lookup name (events (register a name cbs))) as [l|] eqn:L.
  - rewrite R. reflexivity.
  - rewrite <- R. reflexivity.
Qed.

Lemma emit_invokes_callbacks_in_order_witness :
  listener sample_postmate
           (register (new_ParentAPI "https://child.example") "resize" [UserFn 4; UserFn 5])
           (mkEvent "https://child.example" (Window 1)
                    (obj_emit (VNum 1) "resize" (VNum 300)))
  = [ Log Debug "Parent: Received event emission: resize";
      Invoke (UserFn 4) [VNum 300]; Invoke (UserFn 5) [VNum 300] ].
Proof.
  exact (proj2 (emit_invokes_callbacks_in_order sample_postmate
                  (new_ParentAPI "https://child.example") sample_api "resize"
                  [UserFn 4; UserFn 5] (VNum 300) (Window 1) eq_refl eq_refl)).
Defined.

(** X6: an event name that [Object.prototype] defines cannot be used: [on] throws
    and registers nothing, and an emission of that name makes the listener
    throw after its log entry, without invoking any callback. *)
Theorem inherited_event_name_throws
    (p : Postmate) (a : ParentAPI) (name : string) (cb : func)
    (payload : value) (w : window) :
  in_object_prototype name = true ->
  has_own name (events a) = false ->
  on a name cb = (a, [Throw])
  /\ listener p a (mkEvent (p_childOrigin a) w (obj_emit (VNum (childId p)) name payload))
     = [Log Debug ("Parent: Received event emission: " ++ name); Throw].
Proof.
  intros I O. unfold has_own in O.
  destruct (lookup name (events a)) as [l|] eqn:L; [discriminate|].
  assert (R : read (events a) name = ProtoMethod name
              \/ read (events a) name = ProtoAccessor).
  { unfold read. rewrite L. unfold in_object_prototype in I.
    destruct (is_prototype_method name); [left; reflexivity|].
    cbn [orb] in I. rewrite I. right. reflexivity. }
  split.
  - unfold on. destruct R as [-> | ->]; reflexivity.
  - unfold listener.
    replace (sanitize _ _) with (Normal true)
      by (unfold sanitize; cbn [origin data]; rewrite String.eqb_refl; reflexivity).
    cbn [data obj_emit field lookup]. cbn -[String.append read has_property].
    rewrite Z.eqb_refl. unfold has_property. rewrite I, orb_true_r.
    destruct R as [-> | ->]; reflexivity.
Qed.

Lemma inherited_event_name_throws_witness :
  on (new_ParentAPI "https://child.example") "constructor" (UserFn 4)
  = (new_ParentAPI "https://child.example", [Throw]).
Proof.
  exact (proj1 (inherited_event_name_throws sample_postmate
                  (new_ParentAPI "https://child.example") "constructor" (UserFn 4)
                  VNull (Window 1) eq_refl eq_refl)).
Defined.

(** ** Correlation identifiers *)

Lemma transact_skips (p : Postmate) (u uid : Z) (a : ParentAPI) (e : MessageEvent) :
  nullish (data e) = false ->
  field (data e) "uid" = VNum uid ->
  u <> uid ->
  transact p u a e = (a, []).
Proof.
  intros N U D. unfold transact. rewrite N, U. cbn [is_num].
  destruct (Z.eqb_spec uid u) as [E|_]; [congruence|reflexivity].
Qed.

Lemma transact_all_skips (p : Postmate) (uids : list Z) (uid : Z) (a : ParentAPI)
    (e : MessageEvent) :
  nullish (data e) = false ->
  field (data e) "uid" = VNum uid ->
  ~ In uid uids ->
  transact_all p uids a e = (a, []).
Proof.
  intros N U. induction uids as [|u uids IH]; intros I; [reflexivity|].
  cbn [transact_all]. rewrite (transact_skips p u uid a e N U).
  - rewrite IH; [reflexivity|]. intros F. apply I. right. exact F.
  - intros ->. apply I. left. reflexivity.
Qed.

Lemma transact_all_one (p : Postmate) (uids : list Z) (uid : Z) (a : ParentAPI)
    (e : MessageEvent) :
  NoDup uids -> In uid uids ->
  nullish (data e) = false ->
  field (data e) "uid" = VNum uid ->
  field (data e) "postmate" = VStr "reply" ->
  field (data e) "childId" = VNum (childId p) ->
  transact_all p uids a e
  = (mkParentAPI (p_childOrigin a) (events a) (listening a) (attached a)
                 (remove_uid uid (transacts a))
                 (answers a ++ [(uid, field (data e) "value")]),
     [Resolve (GetPromise uid) (WithValue (field (data e) "value"))]).
Proof.
  intros D I N U K C. revert a.
  induction uids as [|u uids IH]; intros a; [destruct I|].
  inversion D as [|? ? Hu D']; subst. cbn [transact_all].
  destruct (Z.eq_dec u uid) as [->|Hne].
  - rewrite (transact_accepts p uid a e N U K C).
    rewrite (transact_all_skips p uids uid _ e N U Hu). reflexivity.
  - rewrite (transact_skips p u uid a e N U Hne).
    destruct I as [E|I]; [contradiction|].
    rewrite (IH D' I a). reflexivity.
Qed.

Lemma remove_uid_absent (uid : Z) (l : list Z) : ~ In uid (remove_uid uid l).
Proof.
  unfold remove_uid. intros H. apply filter_In in H as [_ H].
  rewrite Z.eqb_refl in H. discriminate H.
Qed.

Lemma remove_uid_other (uid u : Z) (l : list Z) :
  u <> uid -> In u l -> In u (remove_uid uid l).
Proof.
  intros D I. unfold remove_uid. apply filter_In. split; [exact I|].
  destruct (Z.eqb_spec u uid); [contradiction|reflexivity].
Qed.

(** X7: a reply resolves the [get] it answers, and only that one, once: of the
    requests outstanding on an established API, the one with the reply's
    correlation identifier is resolved with the reply's value and
    deregistered, the others stay registered, and a second copy of the reply
    does nothing. *)
Theorem reply_resolves_its_get_once
    (s : Parent) (a : ParentAPI) (e : MessageEvent) (uid : Z) :
  api s = Some a -> replying (hs s) = false ->
  NoDup (transacts a) -> In uid (transacts a) ->
  nullish (data e) = false ->
  field (data e) "uid" = VNum uid ->
  field (data e) "postmate" = VStr "reply" ->
  field (data e) "childId" = VNum (childId (self s)) ->
  let a' := mkParentAPI (p_childOrigin a) (events a) (listening a) (attached a)
                        (remove_uid uid (transacts a))
                        (answers a ++ [(uid, field (data e) "value")]) in
  deliver s e
  = (with_api s a', [Resolve (GetPromise uid) (WithValue (field (data e) "value"))])
  /\ (forall u, u <> uid -> In u (transacts a) -> In u (transacts a'))
  /\ deliver (with_api s a') e = (with_api s a', []).
Proof.
  intros A R D I N U K C a'.
  assert (L : forall b, listener (self s) b e = []).
  { intros b. unfold listener.
    destruct (sanitize e _) as [[|]|] eqn:S; try reflexivity.
    - rewrite K. reflexivity.
    - unfold sanitize in S. rewrite K in S. cbn [to_key] in S.
      repeat match type of S with
             | context [if ?c then _ else _] => destruct c; try discriminate S
             end. }
  split; [|split].
  - unfold deliver. rewrite A, R, L.
    rewrite (transact_all_one (self s) (transacts a) uid a e D I N U K C).
    destruct (listening a); reflexivity.
  - intros u Hu Hin. apply remove_uid_other; assumption.
  - unfold deliver. cbn [with_api api hs self]. rewrite R, L.
    rewrite (transact_all_skips (self s) (transacts a') uid a' e N U
               (remove_uid_absent uid (transacts a))).
    destruct (listening a'); reflexivity.
Qed.

Lemma reply_resolves_its_get_once_witness :
  let s := fst (run established [Get (VStr "height")]) in
  deliver s sample_reply
  = (with_api s (mkParentAPI "https://child.example" [] true true []
                             [(1%Z, VNum 42)]),
     [Resolve (GetPromise 1) (WithValue (VNum 42))]).
Proof.
  refine (proj1 (reply_resolves_its_get_once
                   (fst (run established [Get (VStr "height")]))
                   (mkParentAPI "https://child.example" [] true true [1%Z] [])
                   sample_reply 1 eq_refl eq_refl _ _ eq_refl eq_refl eq_refl eq_refl)).
  - repeat constructor. intros [].
  - left. reflexivity.
Defined.

(** Freshness is kept by every step. *)
Lemma doSend_keeps (s : Parent) :
  api (fst (doSend s)) = api s /\ messageId (fst (doSend s)) = messageId s.
Proof.
  unfold doSend. destruct (_ >? _)%Z; cbn [fst]; [|split; reflexivity].
  unfold clear. destruct (responseInterval (hs s)); split; reflexivity.
Qed.

Lemma transact_all_fresh (p : Postmate) (uids : list Z) (a : ParentAPI)
    (e : MessageEvent) (bound : Z) :
  Forall (fun u => (u <= bound)%Z) uids ->
  NoDup (transacts a) ->
  Forall (fun u => (u <= bound)%Z) (drawn a) ->
  NoDup (transacts (fst (transact_all p uids a e)))
  /\ Forall (fun u => (u <= bound)%Z) (drawn (fst (transact_all p uids a e))).
Proof.
  intros B. revert a. induction B as [|u uids Hu B IH]; intros a D F; [split; assumption|].
  cbn [transact_all].
  assert (T : NoDup (transacts (fst (transact p u a e)))
              /\ Forall (fun v => (v <= bound)%Z) (drawn (fst (transact p u a e)))).
  { unfold transact. destruct (nullish _); [split; assumption|].
    destruct (_ && _); [|split; assumption]. cbn [fst transacts]. split.
    - apply NoDup_filter. exact D.
    - unfold drawn in *. cbn [transacts answers].
      apply Forall_app in F as [F1 F2]. apply Forall_app. split.
      + apply Forall_forall. intros x Hx. apply filter_In in Hx as [Hx _].
        exact (proj1 (Forall_forall _ _) F1 x Hx).
      + rewrite map_app. apply Forall_app. split; [exact F2|].
        constructor; [exact Hu|constructor]. }
  destruct (transact p u a e) as [a1 out1]. cbn [fst] in T.
  specialize (IH a1 (proj1 T) (proj2 T)).
  destruct (transact_all p uids a1 e) as [a2 out2]. exact IH.
Qed.

Lemma increment_exact (x : Z) :
  (- 2 ^ 53 <= x < 2 ^ 53)%Z -> increment x = (x + 1)%Z.
Proof.
  intros R. unfold increment.
  destruct (Z.ltb_spec (Z.abs x) (2 ^ 53)) as [L|L]; [reflexivity|].
  destruct (Z.eqb_spec x (- 2 ^ 53)) as [E|E]; [reflexivity|]. lia.
Qed.

Lemma reply_messageId (s : Parent) (e : MessageEvent) :
  messageId (fst (if replying (hs s) then reply s e else (s, []))) = messageId s.
Proof.
  destruct (replying (hs s)); [|reflexivity]. unfold reply.
  destruct (sanitize e _) as [[|]|]; try reflexivity.
  destruct (negb _); [reflexivity|]. destruct (is_str _ _); [|reflexivity].
  unfold clear. destruct (responseInterval (hs s)); reflexivity.
Qed.

(** Only [get] draws from the counter. *)
Lemma step_messageId (s : Parent) (i : input) :
  is_get i = false -> messageId (fst (step s i)) = messageId s.
Proof.
  intros G. unfold step.
  destruct i as [|id|e|property|property payload|name cb|]; [| | |discriminate G| | |].
  - unfold loaded. destruct (doSend_keeps s) as [_ M].
    destruct (doSend s) as [s1 out1]. exact M.
  - unfold tick. destruct (lookup_timer id (timers s)); [|reflexivity].
    match goal with |- context [doSend ?t] =>
      destruct (doSend_keeps t) as [_ M]; rewrite M end.
    reflexivity.
  - unfold deliver. pose proof (reply_messageId s e) as M.
    destruct (if replying (hs s) then reply s e else (s, [])) as [s1 out1].
    cbn [fst] in M. destruct (api s); [|exact M].
    destruct (transact_all _ _ _ _); exact M.
  - destruct (api s); reflexivity.
  - destruct (api s); [|reflexivity]. unfold on. destruct (read _ _); reflexivity.
  - destruct (api s); [|reflexivity]. unfold destroy. destruct (attached _); reflexivity.
Qed.

Lemma get_messageId (s : Parent) (property : value) :
  (- 2 ^ 53 <= messageId s < 2 ^ 53)%Z ->
  (messageId s <= messageId (fst (step s (Get property))) <= messageId s + 1)%Z.
Proof.
  intros R. unfold step. destruct (api s); cbn [fst]; [|lia].
  cbn [get generateNewMessageId with_api fst messageId].
  rewrite (increment_exact _ R). lia.
Qed.

Lemma step_fresh (s : Parent) (i : input) :
  fresh s ->
  (is_get i = true -> (- 2 ^ 53 <= messageId s < 2 ^ 53)%Z) ->
  fresh (fst (step s i)).
Proof.
  intros F R. unfold step, fresh in *.
  destruct i as [|id|e|property|property payload|name cb|].
  - unfold loaded. destruct (doSend_keeps s) as [A M].
    destruct (doSend s) as [s1 out1]. cbn [fst api messageId] in *.
    rewrite A, M. exact F.
  - unfold tick. destruct (lookup_timer id (timers s)); [|exact F].
    match goal with |- context [doSend ?t] =>
      destruct (doSend_keeps t) as [A M]; rewrite A, M end.
    exact F.
  - unfold deliver. destruct (api s) as [a|] eqn:A.
    + destruct F as [D B].
      assert (U : Forall (fun u => (u <= messageId s)%Z) (transacts a)).
      { unfold drawn in B. apply Forall_app in B. apply B. }
      pose proof (transact_all_fresh (self s) (transacts a) a e (messageId s) U D B) as T.
      destruct (transact_all _ _ _ _) as [a3 out3]. cbn [fst] in T.
      pose proof (reply_messageId s e) as M.
      destruct (if replying (hs s) then reply s e else (s, [])) as [s1 out1].
      cbn [fst with_api api messageId] in *. rewrite M. exact T.
    + destruct (replying (hs s)); cbn [fst]; [|rewrite A; exact I].
      unfold reply. destruct (sanitize e _) as [[|]|]; cbn [fst]; try (rewrite A; exact I).
      destruct (negb _); cbn [fst]; [rewrite A; exact I|].
      destruct (is_str _ _); cbn [fst api with_hs]; [|rewrite A; exact I].
      split; constructor.
  - destruct (api s) as [a|] eqn:A; cbn [fst]; [|rewrite A; exact I].
    cbn [get generateNewMessageId with_api fst api messageId transacts].
    rewrite (increment_exact _ (R eq_refl)).
    destruct F as [D B]. unfold drawn in *. cbn [transacts answers].
    apply Forall_app in B as [B1 B2]. split.
    + apply NoDup_app; [exact D|repeat constructor; intros []|].
      intros x Hx [<-|[]].
      pose proof (proj1 (Forall_forall _ _) B1 _ Hx) as Hle. cbv beta in Hle. lia.
    + apply Forall_app. split.
      * apply Forall_app. split.
        -- eapply Forall_impl; [|exact B1]. cbn. intros; lia.
        -- constructor; [lia|constructor].
      * eapply Forall_impl; [|exact B2]. cbn. intros; lia.
  - destruct (api s) as [a|] eqn:A; cbn [fst]; rewrite A; exact F.
  - destruct (api s) as [a|] eqn:A; cbn [fst]; [|rewrite A; exact I].
    unfold on. destruct (read _ _); cbn [fst with_api api messageId]; exact F.
  - destruct (api s) as [a|] eqn:A; cbn [fst]; [|rewrite A; exact I].
    unfold destroy. destruct (attached a); cbn [fst with_api api messageId]; exact F.
Qed.

(** While the counter stays below 2^53 it counts the [get] calls, and
    freshness is kept. *)
Lemma run_fresh (inputs : list input) (s : Parent) :
  fresh s ->
  (- 2 ^ 53 <= messageId s)%Z ->
  (messageId s + Z.of_nat (gets inputs) < 2 ^ 53)%Z ->
  fresh (fst (run s inputs))
  /\ (messageId s <= messageId (fst (run s inputs))
      <= messageId s + Z.of_nat (gets inputs))%Z.
Proof.
  revert s. induction inputs as [|i inputs IH]; intros s F L U.
  { cbn [run fst gets filter List.length Z.of_nat]. split; [exact F|lia]. }
  cbn [run].
  assert (G : gets (i :: inputs) = ((if is_get i then 1 else 0) + gets inputs)%nat).
  { unfold gets. cbn [filter]. destruct (is_get i); reflexivity. }
  rewrite G in *.
  assert (F1 : fresh (fst (step s i))).
  { apply step_fresh; [exact F|]. intros E. rewrite E in U. lia. }
  assert (M : (messageId s <= messageId (fst (step s i))
               <= messageId s + Z.of_nat (if is_get i then 1 else 0))%Z).
  { destruct (is_get i) eqn:E.
    - destruct i; try discriminate E. apply get_messageId. lia.
    - rewrite (step_messageId s i E). cbn [Z.of_nat]. lia. }
  destruct (step s i) as [s1 out1]. cbn [fst] in F1, M.
  specialize (IH s1 F1 ltac:(lia) ltac:(lia)).
  destruct (run s1 inputs) as [s2 out2]. cbn [fst] in *.
  split; [apply IH|lia].
Qed.

(** X8: the counter behind [generateNewMessageId] is a JavaScript number, and
    [++] no longer changes it once it has reached 2^53.  Started at an integer
    [mid] not below -2^53, and for as long as [mid] plus the number of [get]
    calls stays below 2^53: whatever happens to an initiator (loads, timer
    firings, messages of any content, API calls in any order), no correlation
    identifier is awaited by two [get] calls at once, and the identifier the
    next [get] draws is neither awaited nor already answered.  At 2^53 the
    next [get] draws the identifier of the one before. *)
Theorem correlation_identifiers_are_fresh
    (maxRequests mid now : Z) (p : Postmate) (inputs : list input) (a : ParentAPI) :
  let s := fst (run (new_Postmate maxRequests mid now p) inputs) in
  (- 2 ^ 53 <= mid)%Z ->
  (mid + Z.of_nat (gets inputs) < 2 ^ 53)%Z ->
  api s = Some a ->
  (NoDup (transacts a)
   /\ ~ In (snd (generateNewMessageId s)) (transacts a)
   /\ ~ In (snd (generateNewMessageId s)) (map fst (answers a)))
  /\ (forall t : Parent, messageId t = (2 ^ 53)%Z ->
        snd (generateNewMessageId t) = messageId t
        /\ snd (generateNewMessageId (fst (generateNewMessageId t))) = messageId t).
Proof.
  intros s L U A. split.
  - destruct (run_fresh inputs (new_Postmate maxRequests mid now p) I L U) as [F M].
    fold s in F, M. cbn [new_Postmate messageId] in M.
    unfold fresh in F. rewrite A in F. destruct F as [D B].
    unfold drawn in B. apply Forall_app in B as [B1 B2].
    split; [exact D|]. cbn [generateNewMessageId snd].
    rewrite (increment_exact (messageId s)) by lia. split; intros H.
    + pose proof (proj1 (Forall_forall _ _) B1 _ H) as Hle. cbv beta in Hle. lia.
    + pose proof (proj1 (Forall_forall _ _) B2 _ H) as Hle. cbv beta in Hle. lia.
  - intros t E. cbn [generateNewMessageId snd fst messageId]. rewrite E.
    split; reflexivity.
Qed.

Lemma correlation_identifiers_are_fresh_witness :
  (NoDup [1%Z; 2%Z] /\ ~ In 3%Z [1%Z; 2%Z] /\ ~ In 3%Z (@nil Z))
  /\ increment (2 ^ 53) = (2 ^ 53)%Z.
Proof.
  pose proof (correlation_identifiers_are_fresh 5 0 0 sample_postmate
           [Loaded; Message sample_ack; Get (VStr "height"); Get (VStr "width")]
           (mkParentAPI "https://child.example" [] true true [1%Z; 2%Z] [])
           ltac:(vm_compute; discriminate) ltac:(vm_compute; reflexivity) eq_refl)
    as [F S].
  split; [exact F|].
  exact (proj1 (S (mkParent 5 (2 ^ 53) 0 [] 0 sample_postmate
                     (mkHandshake 0 None false Pending) None) eq_refl)).
Defined.

(** ** The logger *)

Lemma set_method_get (l : object) (k k' : string) (f : func) :
  model_get (set_method l k f) k'
  = if (k =? k')%string then Fn f else model_get l k'.
Proof.
  unfold set_method, model_get, has_own.
  destruct (lookup k (props l)) as [old|] eqn:L; cbn [props proto].
  - rewrite lookup_update, L. destruct (k =? k')%string; reflexivity.
  - rewrite lookup_app. cbn [lookup].
    destruct (String.eqb_spec k k') as [<-|D].
    + rewrite L. reflexivity.
    + destruct (lookup k' (props l)); reflexivity.
Qed.

(** X9: after [SanitizeLogger], [debug] and [error] are functions; a member that
    was a function is the same function, every member other than those two is
    what it was, and sanitizing again changes nothing. *)
Theorem SanitizeLogger_completes_the_logger (emptyMethod : func) (logger : object) :
  let sane := SanitizeLogger emptyMethod logger in
  is_function (model_get sane "debug") = true
  /\ is_function (model_get sane "error") = true
  /\ (forall k, is_function (model_get logger k) = true ->
                model_get sane k = model_get logger k)
  /\ (forall k, k <> "debug" -> k <> "error" ->
                model_get sane k = model_get logger k)
  /\ SanitizeLogger emptyMethod sane = sane.
Proof.
  intros sane. subst sane. unfold SanitizeLogger, loggerMethods. cbn [fold_left].
  set (l1 := if negb (is_function (model_get logger "debug"))
             then set_method logger "debug" emptyMethod else logger).
  assert (D1 : is_function (model_get l1 "debug") = true).
  { subst l1. destruct (is_function (model_get logger "debug")) eqn:E; cbn [negb].
    - exact E.
    - rewrite set_method_get. reflexivity. }
  assert (G1 : forall k, is_function (model_get logger k) = true \/ k <> "debug" ->
                         model_get l1 k = model_get logger k).
  { intros k H. subst l1.
    destruct (is_function (model_get logger "debug")) eqn:E; cbn [negb]; [reflexivity|].
    rewrite set_method_get.
    destruct (String.eqb_spec "debug" k) as [<-|_]; [|reflexivity].
    destruct H as [H|H]; [congruence|contradiction]. }
  set (l2 := if negb (is_function (model_get l1 "error"))
             then set_method l1 "error" emptyMethod else l1).
  assert (D2 : is_function (model_get l2 "error") = true).
  { subst l2. destruct (is_function (model_get l1 "error")) eqn:E; cbn [negb].
    - exact E.
    - rewrite set_method_get. reflexivity. }
  assert (G2 : forall k, is_function (model_get l1 k) = true \/ k <> "error" ->
                         model_get l2 k = model_get l1 k).
  { intros k H. subst l2.
    destruct (is_function (model_get l1 "error")) eqn:E; cbn [negb]; [reflexivity|].
    rewrite set_method_get.
    destruct (String.eqb_spec "error" k) as [<-|_]; [|reflexivity].
    destruct H as [H|H]; [congruence|contradiction]. }
  split; [|split; [|split; [|split]]].
  - rewrite G2; [exact D1|left; exact D1].
  - exact D2.
  - intros k H. rewrite G2, G1; auto. left. rewrite G1; auto.
  - intros k H1 H2. rewrite G2, G1; auto.
  - assert (E1 : is_function (model_get l2 "debug") = true)
      by (rewrite G2; [exact D1|left; exact D1]).
    rewrite E1. cbn [negb]. rewrite D2. reflexivity.
Qed.

(** ** The handshake promise *)

Lemma settle_settled (now next : settled) : now <> Pending -> settle now next = now.
Proof. destruct now; [contradiction|reflexivity|reflexivity]. Qed.

Lemma doSend_outcome (s : Parent) :
  outcome (hs s) <> Pending -> outcome (hs (fst (doSend s))) = outcome (hs s).
Proof.
  intros H. unfold doSend. destruct (_ >? _)%Z; cbn [fst with_hs hs outcome]; [|reflexivity].
  apply settle_settled. exact H.
Qed.

Lemma step_outcome (s : Parent) (i : input) :
  outcome (hs s) <> Pending -> outcome (hs (fst (step s i))) = outcome (hs s).
Proof.
  intros H. unfold step.
  destruct i as [|id|e|property|property payload|name cb|].
  - unfold loaded. pose proof (doSend_outcome s H) as D.
    destruct (doSend s) as [s1 out1]. exact D.
  - unfold tick. destruct (lookup_timer id (timers s)); [|reflexivity].
    match goal with |- context [doSend ?t] => exact (doSend_outcome t H) end.
  - assert (R : outcome (hs (fst (reply s e))) = outcome (hs s)).
    { unfold reply. destruct (sanitize e _) as [[|]|]; try reflexivity.
      destruct (negb _); [reflexivity|].
      destruct (is_str _ _); cbn [fst hs outcome with_hs].
      - unfold clear. destruct (responseInterval (hs s));
          cbn [with_timers hs outcome]; apply settle_settled; exact H.
      - apply settle_settled. exact H. }
    unfold deliver. destruct (api s) as [a|].
    + destruct (transact_all _ _ _ _) as [a3 out3].
      destruct (replying (hs s)); [|reflexivity].
      destruct (reply s e) as [s1 out1]. exact R.
    + destruct (replying (hs s)); [exact R|reflexivity].
  - destruct (api s); reflexivity.
  - destruct (api s); reflexivity.
  - destruct (api s) as [a|]; [|reflexivity].
    unfold on. destruct (read _ _); reflexivity.
  - destruct (api s) as [a|]; [|reflexivity].
    unfold destroy. destruct (attached a); reflexivity.
Qed.

Lemma run_outcome (s : Parent) (inputs : list input) :
  outcome (hs s) <> Pending -> outcome (hs (fst (run s inputs))) = outcome (hs s).
Proof.
  revert s. induction inputs as [|i inputs IH]; intros s H; [reflexivity|].
  cbn [run]. pose proof (step_outcome s i H) as E.
  destruct (step s i) as [s1 out1]. cbn [fst] in E.
  assert (H1 : outcome (hs s1) <> Pending) by (rewrite E; exact H).
  specialize (IH s1 H1). destruct (run s1 inputs) as [s2 out2].
  cbn [fst] in *. congruence.
Qed.

(** X11: a message that passes [sanitize] and carries the instance identifier but
    is of another kind than [handshake-reply] fails a pending handshake for
    good: the promise is rejected with [Failed handshake], while the listener
    and the interval stay as they were (so announcements go on), and no later
    acknowledgment resolves it. *)
Theorem stray_message_fails_handshake
    (s : Parent) (e : MessageEvent) (later : list input) :
  outcome (hs s) = Pending ->
  sanitize e (VStr (childOrigin (self s))) = Normal true ->
  field (data e) "childId" = VNum (childId (self s)) ->
  field (data e) "postmate" <> VStr "handshake-reply" ->
  let s1 := fst (reply s e) in
  snd (reply s e)
  = [Log Error "Parent: Failed handshake"; Reject HandshakePromise "Failed handshake"]
  /\ outcome (hs s1) = Rejected "Failed handshake"
  /\ replying (hs s1) = replying (hs s)
  /\ timers s1 = timers s
  /\ attempt (hs s1) = attempt (hs s)
  /\ outcome (hs (fst (run s1 later))) = Rejected "Failed handshake".
Proof.
  intros P S C K s1. subst s1. unfold reply. rewrite S, C.
  cbn [is_num]. rewrite Z.eqb_refl. cbn [negb].
  assert (N : is_str (field (data e) "postmate") "handshake-reply" = false).
  { destruct (field (data e) "postmate") as [| |b|n|t|o]; try reflexivity.
    cbn [is_str]. apply String.eqb_neq. congruence. }
  rewrite N. cbn [fst snd with_hs hs outcome replying timers attempt]. rewrite P.
  repeat split.
  rewrite run_outcome; cbn [hs outcome with_hs settle]; [reflexivity|discriminate].
Qed.

Lemma stray_message_fails_handshake_witness :
  outcome (hs (fst (run (fst (reply (announcing 5 0 0 sample_postmate 0)
                                    (mkEvent "https://child.example" (Window 1)
                                             (obj_emit (VNum 1) "resize" VNull))))
                        [Message sample_ack])))
  = Rejected "Failed handshake".
Proof.
  refine (proj2 (proj2 (proj2 (proj2 (proj2
           (stray_message_fails_handshake (announcing 5 0 0 sample_postmate 0)
              (mkEvent "https://child.example" (Window 1)
                       (obj_emit (VNum 1) "resize" VNull))
              [Message sample_ack] eq_refl eq_refl eq_refl _)))))).
  discriminate.
Defined.

(** ** The responder after the handshake *)

Section ResponderRuns.

Variable returns : func -> value.

Lemma unwrap_acknowledges_nothing (m : object) (k : string) :
  filter is_handshake_reply_post (fst (unwrap returns m k)) = [].
Proof.
  unfold unwrap, invoke_inherited.
  repeat match goal with
         | |- context [match ?c with _ => _ end] => destruct c
         end; reflexivity.
Qed.

Lemma child_listener_never_acknowledges (api : ChildAPI) (e : MessageEvent) :
  filter is_handshake_reply_post (child_listener returns api e) = [].
Proof.
  unfold child_listener.
  destruct (sanitize e _) as [[|]|]; try reflexivity.
  cbn [filter is_handshake_reply_post].
  destruct (is_str _ "call").
  - destruct (to_key _); [|reflexivity].
    destruct (model_has _ _); [|reflexivity].
    destruct (model_get _ _); reflexivity.
  - unfold resolveValue. destruct (to_key _) as [k|]; [|reflexivity].
    pose proof (unwrap_acknowledges_nothing (api_model api) k) as N.
    destruct (unwrap returns (api_model api) k) as [calls result]. cbn [fst] in N.
    rewrite filter_app, N. destruct result as [[v|]|]; reflexivity.
Qed.

Lemma child_run_registered (s : Model) (api : ChildAPI) (events : list MessageEvent) :
  m_shaking s = false -> m_api s = Some api ->
  fst (child_run returns s events) = s
  /\ filter is_handshake_reply_post (snd (child_run returns s events)) = [].
Proof.
  intros SH A. induction events as [|e events [IH1 IH2]]; [split; reflexivity|].
  cbn [child_run]. unfold child_deliver. rewrite SH, A.
  destruct (child_run returns s events) as [s2 out2]. cbn [fst snd app] in *.
  split; [exact IH1|].
  rewrite filter_app, child_listener_never_acknowledges, IH2. reflexivity.
Qed.

(** X12: the responder acknowledges one handshake and no more: the handshake it
    accepts is answered by one [handshake-reply], and whatever messages arrive
    afterwards, its state stays what the handshake made it and no further
    [handshake-reply] is posted.  A second copy of the initiator's announcement
    is answered like a read of the property [undefined]: by a [reply] envelope
    with the instance identifier and an undefined correlation identifier. *)
Theorem responder_acknowledges_once
    (s : Model) (p : Postmate) (o : string) (w : window) (later : list MessageEvent) :
  let e := mkEvent o w (obj_handshake p) in
  let s' := fst (shake s e) in
  filter is_handshake_reply_post (snd (shake s e))
  = [PostMessage w (obj_handshake_reply (VNum (childId p))) o]
  /\ fst (child_run returns s' later) = s'
  /\ filter is_handshake_reply_post (snd (child_run returns s' later)) = []
  /\ child_deliver returns s' e
     = (s', Log Debug "Child: Received request"
            :: accessor_calls (m_model s') "undefined"
            ++ [ PostMessage w
                   (obj_reply VUndefined (VNum (childId p)) VUndefined
                              (resolved_value returns (m_model s') "undefined"))
                   o ]).
Proof.
  intros e s'. subst s'.
  rewrite (shake_accepts s e eq_refl).
  cbn [fst snd]. split; [|split; [|split]].
  - rewrite !filter_app. cbn [filter is_handshake_reply_post].
    destruct (truthy _); reflexivity.
  - eapply child_run_registered; reflexivity.
  - eapply child_run_registered; reflexivity.
  - unfold child_deliver. cbn [m_shaking m_api m_model app].
    rewrite (child_listener_answers returns _ e "undefined"); try reflexivity.
    + unfold sanitize. cbn [api_parentOrigin origin e data]. rewrite String.eqb_refl.
      reflexivity.
    + discriminate.
    + right. reflexivity.
Qed.

End ResponderRuns.


(** ** Intervals *)

Lemma lookup_timer_cleared (id id' : nat) (ts : list (nat * Z)) :
  id' <> id ->
  lookup_timer id (filter (fun t => negb (Nat.eqb (fst t) id')) ts) = lookup_timer id ts.
Proof.
  intros D. induction ts as [|[i due] ts IH]; [reflexivity|].
  cbn [filter fst lookup_timer].
  destruct (Nat.eqb_spec i id') as [->|Hi]; cbn [negb lookup_timer].
  - destruct (Nat.eqb_spec id' id); [contradiction|exact IH].
  - rewrite IH. reflexivity.
Qed.

Lemma lookup_timer_rearmed (id id' : nat) (ts : list (nat * Z)) :
  lookup_timer id ts <> None -> lookup_timer id (rearm id' ts) <> None.
Proof.
  induction ts as [|[i due] ts IH]; [intros H; exact H|].
  unfold rearm in *. cbn [map fst snd lookup_timer].
  destruct (Nat.eqb i id'); cbn [fst lookup_timer];
    destruct (Nat.eqb i id); try discriminate; exact IH.
Qed.

Lemma lookup_timer_app (id : nat) (ts ts' : list (nat * Z)) :
  lookup_timer id ts <> None -> lookup_timer id (ts ++ ts') <> None.
Proof.
  induction ts as [|[i due] ts IH]; [intros H; contradiction|].
  cbn [app lookup_timer]. destruct (Nat.eqb i id); [discriminate|exact IH].
Qed.

Lemma clear_superseded (s : Parent) (id : nat) :
  superseded s id -> superseded (clear s) id.
Proof.
  intros (T & R & N). unfold clear, superseded.
  destruct (responseInterval (hs s)) as [id'|] eqn:E; [|rewrite E; auto].
  cbn [with_timers timers hs nextTimer]. rewrite E.
  split; [|split; assumption].
  rewrite lookup_timer_cleared; [exact T|]. congruence.
Qed.

Lemma clear_responseInterval (s : Parent) :
  responseInterval (hs (clear s)) = responseInterval (hs s)
  /\ nextTimer (clear s) = nextTimer s.
Proof.
  unfold clear. destruct (responseInterval (hs s)) eqn:E;
    cbn [with_timers hs nextTimer]; rewrite ?E; split; reflexivity.
Qed.

Lemma doSend_superseded (s : Parent) (id : nat) :
  superseded s id -> superseded (fst (doSend s)) id.
Proof.
  intros H. unfold doSend. destruct (_ >? _)%Z; cbn [fst]; [|exact H].
  destruct (clear_superseded s id H) as (T & R & N).
  destruct (clear_responseInterval s) as [E _]. rewrite E in R.
  repeat split; assumption.
Qed.

(** A load that still has budget arms a new interval and leaves the one that
    was armed behind. *)
Lemma loaded_superseded (s : Parent) (id : nat) :
  lookup_timer id (timers s) <> None -> (id < nextTimer s)%nat ->
  (attempt (hs s) + 1 <= maxHandshakeRequests s)%Z ->
  superseded (fst (loaded s)) id.
Proof.
  intros T N B. unfold loaded, doSend.
  destruct (Z.gtb_spec (attempt (hs s) + 1) (maxHandshakeRequests s)) as [G|_]; [lia|].
  cbn [fst with_hs timers hs responseInterval nextTimer attempt replying outcome
       maxHandshakeRequests messageId clock self api].
  repeat split; cbn [timers hs responseInterval nextTimer].
  - apply lookup_timer_app. exact T.
  - intros [= E]. lia.
  - lia.
Qed.

Lemma step_superseded (s : Parent) (i : input) (id : nat) :
  superseded s id -> superseded (fst (step s i)) id.
Proof.
  intros H. unfold step.
  destruct i as [|t|e|property|property payload|name cb|].
  - unfold loaded. pose proof (doSend_superseded s id H) as (T & R & N).
    destruct (doSend s) as [s1 out1]. cbn [fst] in *.
    repeat split; cbn [timers hs responseInterval nextTimer].
    + apply lookup_timer_app. exact T.
    + intros [= E]. lia.
    + lia.
  - unfold tick. destruct (lookup_timer t (timers s)); [|exact H].
    apply doSend_superseded. destruct H as (T & R & N).
    repeat split; cbn [timers hs nextTimer]; try assumption.
    apply lookup_timer_rearmed. exact T.
  - assert (P : superseded (fst (reply s e)) id).
    { unfold reply. destruct (sanitize e _) as [[|]|]; try exact H.
      destruct (negb _); [exact H|].
      destruct (is_str _ _); cbn [fst]; [|exact H].
      destruct (clear_superseded s id H) as (T & R & N).
      repeat split; cbn [timers hs responseInterval nextTimer]; assumption. }
    unfold deliver. destruct (api s) as [a|].
    + destruct (transact_all _ _ _ _) as [a3 out3].
      destruct (replying (hs s)); [|exact H].
      destruct (reply s e) as [s1 out1]. exact P.
    + destruct (replying (hs s)); [exact P|exact H].
  - destruct (api s); exact H.
  - destruct (api s); exact H.
  - destruct (api s) as [a|]; [|exact H].
    unfold on. destruct (read _ _); exact H.
  - destruct (api s) as [a|]; [|exact H].
    unfold destroy. destruct (attached a); exact H.
Qed.

Lemma run_superseded (s : Parent) (inputs : list input) (id : nat) :
  superseded s id -> superseded (fst (run s inputs)) id.
Proof.
  revert s. induction inputs as [|i inputs IH]; intros s H; [exact H|].
  cbn [run]. pose proof (step_superseded s i id H) as H1.
  destruct (step s i) as [s1 out1]. cbn [fst] in H1.
  specialize (IH s1 H1). destruct (run s1 inputs) as [s2 out2]. exact IH.
Qed.

(** X13: when the frame loads again while the handshake still has budget, the
    interval armed by the earlier load is never cleared: whatever happens
    afterwards (acknowledgment and timeout included) it stays armed, and each
    of its firings runs [doSend], which announces or reports the timeout. *)
Theorem superseded_interval_is_never_cleared
    (s : Parent) (id : nat) (inputs : list input) :
  lookup_timer id (timers s) <> None ->
  (id < nextTimer s)%nat ->
  (attempt (hs s) + 1 <= maxHandshakeRequests s)%Z ->
  let s' := fst (run (fst (loaded s)) inputs) in
  lookup_timer id (timers s') <> None
  /\ snd (tick s' id) <> [].
Proof.
  intros T N B s'.
  assert (H : superseded s' id)
    by (apply run_superseded, loaded_superseded; assumption).
  destruct H as (T' & _ & _). split; [exact T'|].
  unfold tick. destruct (lookup_timer id (timers s')); [|contradiction].
  unfold doSend. destruct (_ >? _)%Z; discriminate.
Qed.

Lemma superseded_interval_is_never_cleared_witness :
  let s' := fst (run (fst (loaded (announcing 5 0 0 sample_postmate 0)))
                     [Message sample_ack; Tick 2; Destroy]) in
  lookup_timer 1 (timers s') <> None /\ snd (tick s' 1) <> [].
Proof.
  apply (superseded_interval_is_never_cleared (announcing 5 0 0 sample_postmate 0) 1).
  - discriminate.
  - repeat constructor.
  - cbn. discriminate.
Defined.

(** ** Pairings that share a window *)

(** X14: two pairings with different instance identifiers never act on the same
    message: what one initiator's handshake listener, event listener or
    [get] listener acts on, the other pairing's listeners ignore. *)
Theorem pairings_are_isolated
    (s1 s2 : Parent) (a1 a2 : ParentAPI) (uid1 uid2 : Z) (e : MessageEvent) :
  childId (self s1) <> childId (self s2) ->
  (acted (snd (reply s1 e)) = true -> reply s2 e = (s2, []))
  /\ (acted (listener (self s1) a1 e) = true -> listener (self s2) a2 e = [])
  /\ (acted (snd (transact (self s1) uid1 a1 e)) = true ->
      transact (self s2) uid2 a2 e = (a2, [])).
Proof.
  intros D.
  assert (M : field (data e) "childId" = VNum (childId (self s1)) ->
              is_num (field (data e) "childId") (childId (self s2)) = false).
  { intros ->. cbn [is_num]. apply Z.eqb_neq. exact D. }
  assert (S : forall o o', sanitize e (VStr o) = Normal true ->
                           sanitize e (VStr o') <> TypeError).
  { intros o o' H. unfold sanitize in *.
    destruct (negb (origin e =? o')%string); [discriminate|].
    destruct (negb (origin e =? o)%string); [discriminate H|].
    destruct (negb (truthy _)); [discriminate|].
    destruct (_ && _); [discriminate|].
    destruct (negb (is_str _ _)); [discriminate|].
    destruct (to_key _); [|discriminate H].
    destruct (negb _); discriminate. }
  split; [|split].
  - intros H. unfold reply in H.
    destruct (sanitize e (VStr (childOrigin (self s1)))) as [[|]|] eqn:S1;
      try discriminate H.
    destruct (is_num _ (childId (self s1))) eqn:C; [|discriminate H].
    apply is_num_eq in C. unfold reply.
    pose proof (S _ (childOrigin (self s2)) S1) as NT.
    destruct (sanitize e (VStr (childOrigin (self s2)))) as [[|]|];
      [|reflexivity|contradiction].
    rewrite (M C). reflexivity.
  - intros H. unfold listener in H.
    destruct (sanitize e (VStr (p_childOrigin a1))) as [[|]|] eqn:S1;
      try discriminate H.
    destruct (is_str _ "emit"); [|discriminate H].
    destruct (is_num _ (childId (self s1))) eqn:C; [|discriminate H].
    apply is_num_eq in C. unfold listener.
    pose proof (S _ (p_childOrigin a2) S1) as NT.
    destruct (sanitize e (VStr (p_childOrigin a2))) as [[|]|];
      [|reflexivity|contradiction].
    rewrite (M C), andb_false_r. reflexivity.
  - intros H. unfold transact in *.
    destruct (nullish _); [discriminate H|].
    destruct (is_num _ uid1); [|discriminate H].
    destruct (is_str _ "reply"); [|discriminate H].
    destruct (is_num _ (childId (self s1))) eqn:C; [|discriminate H].
    apply is_num_eq in C. rewrite (M C), !andb_false_r. reflexivity.
Qed.

Lemma pairings_are_isolated_witness :
  transact (mkPostmate VNull 2 (Window 2) "https://child.example") 1
           (new_ParentAPI "https://child.example") sample_reply
  = (new_ParentAPI "https://child.example", []).
Proof.
  refine (proj2 (proj2 (pairings_are_isolated established
            (new_Postmate 5 0 0 (mkPostmate VNull 2 (Window 2) "https://child.example"))
            (new_ParentAPI "https://child.example")
            (new_ParentAPI "https://child.example") 1 1 sample_reply _)) eq_refl).
  discriminate.
Defined.

(** ** Failure and noise *)

(** X15: a marked message of another kind than [handshake] rejects the
    responder's promise and changes nothing else: [shake] stays registered,
    the model is untouched.  A handshake that arrives later is answered as if
    nothing had happened (same actions, an API is registered), but the promise
    stays rejected. *)
Theorem failed_responder_still_answers (s : Model) (e h : MessageEvent) :
  m_promise s = Pending ->
  nullish (data e) = false ->
  truthy (field (data e) "postmate") = true ->
  field (data e) "postmate" <> VStr "handshake" ->
  field (data h) "postmate" = VStr "handshake" ->
  let s1 := fst (shake s e) in
  snd (shake s e)
  = [Log Error "Child : Handshake Reply Failed"; Reject ModelPromise "Handshake Reply Failed"]
  /\ m_model s1 = m_model s /\ m_shaking s1 = m_shaking s /\ m_api s1 = m_api s
  /\ m_promise s1 = Rejected "Handshake Reply Failed"
  /\ snd (shake s1 h) = snd (shake s h)
  /\ m_api (fst (shake s1 h)) = m_api (fst (shake s h))
  /\ m_promise (fst (shake s1 h)) = Rejected "Handshake Reply Failed".
Proof.
  intros P N T K H s1. subst s1.
  assert (E : shake s e
              = (mkModel (m_child s) (m_parent s) (m_model s) (m_childId s)
                         (m_parentOrigin s) (m_shaking s)
                         (Rejected "Handshake Reply Failed") (m_api s),
                 [ Log Error "Child : Handshake Reply Failed";
                   Reject ModelPromise "Handshake Reply Failed" ])).
  { unfold shake. rewrite N, T. cbn [negb].
    assert (F : is_str (field (data e) "postmate") "handshake" = false).
    { destruct (field (data e) "postmate") as [| |b|n|t|o]; try reflexivity.
      cbn [is_str]. apply String.eqb_neq. congruence. }
    rewrite F, P. reflexivity. }
  rewrite E. cbn [fst snd m_model m_shaking m_api m_promise].
  rewrite !(shake_accepts _ h H).
  cbn [fst snd m_model m_parent m_child m_api m_promise settle].
  repeat split.
Qed.

Lemma failed_responder_still_answers_witness :
  m_promise (fst (shake (fst (shake (new_Model (Window 1) (Window 0) sample_model)
                                    sample_call))
                        sample_handshake))
  = Rejected "Handshake Reply Failed".
Proof.
  exact (proj2 (proj2 (proj2 (proj2 (proj2 (proj2 (proj2
           (failed_responder_still_answers
              (new_Model (Window 1) (Window 0) sample_model)
              sample_call sample_handshake eq_refl eq_refl eq_refl
              (fun F => ltac:(discriminate F)) eq_refl)))))))).
Defined.

Section NullPayload.

Variable returns : func -> value.

(** X16: a message whose payload is null or undefined is dropped without effect by
    the three listeners that call [sanitize], and makes [shake] and every
    [get] listener throw. *)
Theorem null_payload_is_dropped_or_throws
    (e : MessageEvent) (s : Parent) (a : ParentAPI) (api : ChildAPI)
    (m : Model) (uid : Z) :
  nullish (data e) = true ->
  reply s e = (s, [])
  /\ listener (self s) a e = []
  /\ child_listener returns api e = []
  /\ shake m e = (m, [Throw])
  /\ transact (self s) uid a e = (a, [Throw]).
Proof.
  intros N.
  assert (S : forall o, sanitize e o = Normal false).
  { intros o. unfold sanitize.
    destruct (match o with VStr a0 => _ | _ => _ end); [reflexivity|].
    destruct (data e); try discriminate N; reflexivity. }
  unfold reply, listener, child_listener, shake, transact.
  rewrite !S, N. repeat split.
Qed.

End NullPayload.

Lemma null_payload_is_dropped_or_throws_witness :
  transact sample_postmate 1 (new_ParentAPI "https://child.example")
           (mkEvent "https://other.example" (Window 9) VNull)
  = (new_ParentAPI "https://child.example", [Throw]).
Proof.
  exact (proj2 (proj2 (proj2 (proj2
           (null_payload_is_dropped_or_throws (fun _ => VNull)
              (mkEvent "https://other.example" (Window 9) VNull)
              established (new_ParentAPI "https://child.example") sample_api
              (new_Model (Window 1) (Window 0) sample_model) 1 eq_refl))))).
Defined.

Section Noise.

Variables (max : nat) (mid now : Z) (p : Postmate).

Let announce (i : nat) : Z * action :=
  ((now + period * Z.of_nat i)%Z,
   PostMessage (child p) (obj_handshake p) (childOrigin p)).

Lemma reply_ignores_noise (s : Parent) (e : MessageEvent) :
  self s = p -> noise p e -> reply s e = (s, []).
Proof.
  intros <- [S|[S C]]; unfold reply; rewrite S; [reflexivity|].
  destruct (field (data e) "childId") as [| |b|n|t|o]; try reflexivity.
  cbn [is_num]. destruct (Z.eqb_spec n (childId (self s))) as [->|_]; [|reflexivity].
  contradiction C. reflexivity.
Qed.

Lemma deliver_noise (s : Parent) (e : MessageEvent) :
  self s = p -> api s = None -> noise p e -> deliver s e = (s, []).
Proof.
  intros S A N. unfold deliver. rewrite A.
  destruct (replying (hs s)); [apply reply_ignores_noise; assumption|reflexivity].
Qed.

Lemma run_timed_out (inputs : list input) :
  Forall (calm p) inputs ->
  run (timed_out max mid now p) inputs = (timed_out max mid now p, []).
Proof.
  induction 1 as [|i inputs [->|(e & -> & N)] _ IH]; [reflexivity| |]; cbn [run step].
  - rewrite (tick_unarmed (timed_out max mid now p) 1 eq_refl), IH. reflexivity.
  - rewrite (deliver_noise (timed_out max mid now p) e eq_refl eq_refl N), IH.
    reflexivity.
Qed.

Lemma run_calm (inputs : list input) (j : nat) :
  Forall (calm p) inputs -> (j < max)%nat ->
  let result := run (announcing max mid now p j) inputs in
  stamped is_handshake_post (snd result)
  = map announce (seq (S j) (Nat.min (ticks inputs) (max - S j)))
  /\ ((j + ticks inputs < max)%nat ->
      fst result = announcing max mid now p (j + ticks inputs)
      /\ stamped settles_handshake (snd result) = [])
  /\ ((max <= j + ticks inputs)%nat ->
      fst result = timed_out max mid now p
      /\ stamped settles_handshake (snd result)
         = [((now + period * Z.of_nat max)%Z,
             Reject HandshakePromise "Handshake Timeout Reached")]).
Proof.
  intros F. revert j.
  induction F as [|i inputs [->|(e & -> & N)] F IH]; intros j J.
  - cbn [run fst snd ticks Nat.min seq map]. unfold stamped. cbn [filter].
    rewrite Nat.add_0_r. repeat split; intros; lia || reflexivity.
  - cbn [run step ticks].
    destruct (Nat.eq_dec (S j) max) as [E|D].
    + rewrite (tick_last max mid now p j E), (run_timed_out inputs F).
      cbn [fst snd]. replace (max - S j)%nat with 0%nat by lia.
      rewrite Nat.min_0_r. cbn [seq map app].
      split; [reflexivity|]. split; [intros; lia|]. intros _.
      split; reflexivity.
    + rewrite (tick_announcing max mid now p j) by lia.
      specialize (IH (S j) ltac:(lia)). cbn zeta in IH.
      destruct (run (announcing max mid now p (S j)) inputs) as [s2 out2].
      cbn [fst snd] in *. destruct IH as (P & A & B).
      rewrite stamped_app, P.
      replace (Nat.min (S (ticks inputs)) (max - S j))
        with (S (Nat.min (ticks inputs) (max - S (S j)))) by lia.
      split; [reflexivity|]. split.
      * intros L. replace (j + S (ticks inputs))%nat with (S j + ticks inputs)%nat by lia.
        destruct (A ltac:(lia)) as [A1 A2]. split; [exact A1|].
        rewrite stamped_app, A2. reflexivity.
      * intros L. destruct (B ltac:(lia)) as [B1 B2]. split; [exact B1|].
        rewrite stamped_app, B2. reflexivity.
  - cbn [run step ticks].
    rewrite (deliver_noise (announcing max mid now p j) e eq_refl eq_refl N).
    specialize (IH j J). cbn zeta in IH.
    destruct (run (announcing max mid now p j) inputs) as [s2 out2].
    cbn [fst snd map app] in *. exact IH.
Qed.

End Noise.

(** X17: noise does not perturb the handshake: with messages that [sanitize]
    rejects or that carry another instance identifier arriving at any moments
    between the firings of the interval, the initiator still posts one
    announcement per firing, one period apart, stays pending while the budget
    lasts, and is rejected with the timeout reason, after exactly [max]
    announcements, once it is exhausted. *)
Theorem handshake_ignores_noise
    (max : nat) (mid now : Z) (p : Postmate) (inputs : list input) :
  (1 <= max)%nat -> Forall (calm p) inputs ->
  let result := run (new_Postmate (Z.of_nat max) mid now p) (Loaded :: inputs) in
  stamped is_handshake_post (snd result)
  = announcements p now (Nat.min (S (ticks inputs)) max)
  /\ ((ticks inputs < max)%nat -> outcome (hs (fst result)) = Pending)
  /\ ((max <= ticks inputs)%nat ->
      outcome (hs (fst result)) = Rejected "Handshake Timeout Reached"
      /\ stamped settles_handshake (snd result)
         = [((now + period * Z.of_nat max)%Z,
             Reject HandshakePromise "Handshake Timeout Reached")]).
Proof.
  intros M F result. subst result. cbn [run step].
  rewrite (loaded_start max mid now p M).
  pose proof (run_calm max mid now p inputs 0 F ltac:(lia)) as R. cbn zeta in R.
  destruct (run (announcing max mid now p 0) inputs) as [s2 out2].
  cbn [fst snd] in *. destruct R as (P & A & B).
  split; [|split].
  - rewrite stamped_app, P.
    replace (Nat.min (S (ticks inputs)) max)
      with (S (Nat.min (ticks inputs) (max - 1))) by lia.
    unfold announcements. cbn [seq map]. unfold stamped at 1.
    cbn [map filter snd is_handshake_post].
    change (is_str (field (obj_handshake p) "postmate") "handshake") with true.
    cbn [app]. unfold announcing. cbn [clock].
    f_equal.
  - intros L. destruct (A ltac:(lia)) as [-> _]. reflexivity.
  - intros L. destruct (B ltac:(lia)) as [-> B2]. split; [reflexivity|].
    rewrite stamped_app, B2. reflexivity.
Qed.

Lemma handshake_ignores_noise_witness :
  let result := run (new_Postmate (Z.of_nat 2) 0 0 sample_postmate)
                    [Loaded; Message forged_reply; Tick 1; Message foreign_reply; Tick 1] in
  stamped is_handshake_post (snd result) = announcements sample_postmate 0 2
  /\ outcome (hs (fst result)) = Rejected "Handshake Timeout Reached".
Proof.
  assert (F : Forall (calm sample_postmate)
                     [Message forged_reply; Tick 1; Message foreign_reply; Tick 1]).
  { apply Forall_cons; [|apply Forall_cons; [|apply Forall_cons; [|apply Forall_cons]]].
    - right. exists forged_reply. split; [reflexivity|]. left. reflexivity.
    - left. reflexivity.
    - right. exists foreign_reply. split; [reflexivity|].
      right. split; [reflexivity|discriminate].
    - left. reflexivity.
    - apply Forall_nil. }
  destruct (handshake_ignores_noise 2 0 0 sample_postmate
              [Message forged_reply; Tick 1; Message foreign_reply; Tick 1]
              (le_S _ _ (le_n 1)) F) as (P & _ & T).
  split; [exact P|]. apply T. repeat constructor.
Defined.
